(** * Skipper: the route-listing endpoint, pinned lookups and multi-type plugins

    A shallow embedding of [routing/routing.go] (the introspection
    handler [Routing.ServeHTTP], its helpers [slice], [extractParam] and
    [extractPretty], and the lookup handle [RouteLookup]) and of
    [LoadMultiPlugin] from [plugins.go].

    Go values are modelled as follows.
    - [int] is a 64-bit two's complement integer, carried as a [Z] with the
      wrap-around of [+] written out ([int_add]).
    - A slice is either the nil slice or a non-nil slice over a list
      ([goslice]); a run-time panic is the outcome [Panics].
    - [url.Values] and [http.Header] are finite maps from strings to lists
      of strings.
    - An [http.ResponseWriter] is the state it accumulates: a header map,
      the status code once written, and the body written so far. *)

From Stdlib Require Import ZArith String Ascii List Lia DecimalString.
From Stdlib Require DecimalPos.
From stdpp Require Import base option list gmap strings.

Local Open Scope string_scope.
Local Open Scope Z_scope.

(** ** Outcomes of Go code that may panic *)

Inductive outcome (A : Type) : Type :=
| Returns (a : A)
| Panics.
Arguments Returns {A} a.
Arguments Panics {A}.

(** ** The Go base library, as far as the handler uses it *)

Module Go.

(** [int] on the 64-bit platforms skipper is built for. *)
Definition maxInt : Z := 9223372036854775807.
Definition minInt : Z := -9223372036854775808.

Definition wrap (z : Z) : Z := (z + 2 ^ 63) mod 2 ^ 64 - 2 ^ 63.

(** [a + b] on [int]: overflow wraps silently. *)
Definition int_add (a b : Z) : Z := wrap (a + b).

(** Slices: [nilSlice] is the nil slice, [Slice l] a non-nil one. *)
Inductive goslice (A : Type) : Type :=
| nilSlice
| Slice (elems : list A).
Arguments nilSlice {A}.
Arguments Slice {A} elems.

Definition elems_of {A} (s : goslice A) : list A :=
  match s with
  | nilSlice => []
  | Slice l => l
  end.

Definition len {A} (s : goslice A) : Z := Z.of_nat (length (elems_of s)).

Definition is_nil {A} (s : goslice A) : bool :=
  match s with
  | nilSlice => true
  | Slice _ => false
  end.

(** The slice expression [s[low:high]].  Go panics unless
    [0 <= low <= high <= cap(s)]; the capacity is not modelled, the
    length stands for it ([len(s) <= cap(s)], and the only slice
    expression of the handler is reached with [high <= len(s)]).
    Slicing the nil slice gives the nil slice, slicing a non-nil slice a
    non-nil one. *)
Definition subslice {A} (s : goslice A) (low high : Z) : outcome (goslice A) :=
  if (0 <=? low) && (low <=? high) && (high <=? len s) then
    match s with
    | nilSlice => Returns nilSlice
    | Slice l =>
        Returns (Slice (take (Z.to_nat (high - low)) (drop (Z.to_nat low) l)))
    end
  else Panics.

(** [strconv.FormatInt(i, 10)] and [strconv.Itoa]. *)
Definition FormatInt (i : Z) : string := NilZero.string_of_int (Z.to_int i).
Definition Itoa (i : Z) : string := FormatInt i.

Definition is_digit (c : ascii) : bool :=
  (48 <=? Z.of_nat (nat_of_ascii c)) && (Z.of_nat (nat_of_ascii c) <=? 57).

Definition digit_val (c : ascii) : Z := Z.of_nat (nat_of_ascii c) - 48.

(** The digit loop of [strconv.ParseInt] in base 10: every byte must be a
    decimal digit (no underscores in an explicit base). *)
Fixpoint parse_digits (s : string) (acc : Z) : option Z :=
  match s with
  | EmptyString => Some acc
  | String c s' =>
      if is_digit c then parse_digits s' (acc * 10 + digit_val c) else None
  end.

(** [strconv.Atoi]: an optional sign, then at least one decimal digit; a
    value outside [int] is a range error.  [None] is a non-nil error. *)
Definition Atoi (s : string) : option Z :=
  match s with
  | EmptyString => None
  | String c s' =>
      let neg := Ascii.eqb c "-" in
      let body := if neg || Ascii.eqb c "+" then s' else s in
      match body with
      | EmptyString => None
      | _ =>
          match parse_digits body 0 with
          | None => None
          | Some n =>
              let v := if neg then - n else n in
              if (minInt <=? v) && (v <=? maxInt) then Some v else None
          end
      end
  end.

(** A Go [error] value: what [strconv] reports, or the product of
    [fmt.Errorf]. A nil error is [None] of [option error]. *)
Inductive error : Type :=
| NumError (func input : string)
| Errorf (msg : string).

(** [err.Error()], as [%s] prints an error. *)
Definition Error_string (e : error) : string :=
  match e with
  | NumError func input => "strconv." +:+ func +:+ ": parsing " +:+ input
  | Errorf msg => msg
  end.

(** [strings.Contains]. *)
Fixpoint Contains (s substr : string) : bool :=
  String.prefix substr s ||
  match s with
  | EmptyString => false
  | String _ s' => Contains s' substr
  end.

(** [url.Values.Get] and [http.Header.Get]: the first value of the key,
    the empty string when there is none. *)
Definition Values_Get (v : gmap string (list string)) (key : string) : string :=
  match v !! key with
  | Some (x :: _) => x
  | _ => EmptyString
  end.

(** The state behind an [http.ResponseWriter]. *)
Record ResponseWriter : Type := mkResponseWriter {
  Header : gmap string (list string);
  code : option Z;
  body : string
}.

Definition newRecorder : ResponseWriter :=
  {| Header := ∅; code := None; body := EmptyString |}.

(** [w.Header().Set(k, v)] *)
Definition Header_Set (w : ResponseWriter) (k v : string) : ResponseWriter :=
  {| Header := <[k := [v]]> (Header w); code := code w; body := body w |}.

(** [w.Header().Del(k)] *)
Definition Header_Del (w : ResponseWriter) (k : string) : ResponseWriter :=
  {| Header := delete k (Header w); code := code w; body := body w |}.

(** [w.WriteHeader(c)]: only the first call decides the status. *)
Definition WriteHeader (w : ResponseWriter) (c : Z) : ResponseWriter :=
  match code w with
  | Some _ => w
  | None => {| Header := Header w; code := Some c; body := body w |}
  end.

(** [w.Write(b)]: an implicit [WriteHeader(200)] before the first byte. *)
Definition Write (w : ResponseWriter) (b : string) : ResponseWriter :=
  let w := WriteHeader w 200 in
  {| Header := Header w; code := code w; body := body w +:+ b |}.

(** The status the client sees: 200 when the handler never set one. *)
Definition status (w : ResponseWriter) : Z := default 200 (code w).

Definition StatusBadRequest : Z := 400.
Definition StatusMethodNotAllowed : Z := 405.
Definition StatusInternalServerError : Z := 500.

Definition newline : string := String (ascii_of_nat 10) EmptyString.

(** [http.Error(w, msg, code)] *)
Definition http_Error (w : ResponseWriter) (msg : string) (c : Z) : ResponseWriter :=
  let w := Header_Del w "Content-Length" in
  let w := Header_Set w "Content-Type" "text/plain; charset=utf-8" in
  let w := Header_Set w "X-Content-Type-Options" "nosniff" in
  let w := WriteHeader w c in
  Write w (msg +:+ newline).

(** [http.StatusText(http.StatusInternalServerError)] *)
Definition StatusText500 : string := "Internal Server Error".

(** An [*http.Request] after [req.ParseForm()]: [Form] holds the parsed
    query parameters. *)
Record Request : Type := mkRequest {
  Method : string;
  Form : gmap string (list string);
  ReqHeader : gmap string (list string)
}.

End Go.
Import Go.

(** ** Package [eskip], as far as the handler uses it

    [eskip.Route], its JSON form and the printer [eskip.Fprint] live in
    the package [eskip]; the handler only passes routes through, so they
    are an interface here. [MarshalJSON] is [None] when encoding a route
    fails; [Fprint] is the text the printer writes. *)

Record PrettyPrintInfo : Type := mkPrettyPrintInfo {
  Pretty : bool;
  IndentStr : string
}.

Class Eskip (eskip_Route : Type) : Type := {
  MarshalJSON : eskip_Route -> option string;
  Fprint : PrettyPrintInfo -> list eskip_Route -> string
}.

(** Modelled from the spec: the matcher of [routing/matcher.go], which
    is not part of this development, seen through its one method [match].
    Its input is an HTTP request with its method, URL path, host and
    headers ([httpRequest], the whole request, of which the listing
    handler reads less); its output is the winning route, if any, and the
    captured path parameters. Custom predicates must be pure with respect
    to the request, so [match] is a function of the matcher object and
    the request. *)
Class Matching (matcher Route httpRequest : Type) : Type := {
  matcher_match : matcher -> httpRequest -> option Route * gmap string string
}.

(** ** [routing/routing.go] *)

Section routing.
Context {eskip_Route : Type} `{!Eskip eskip_Route}.
Context {matcher : Type}.

Definition routesTimestampName : string := "X-Timestamp".
Definition routesCountName : string := "X-Count".
Definition defaultRouteListingLimit : Z := 1024.

(** [time.Time], of which only [Unix()] is read. *)
Record Time : Type := mkTime { Unix : Z }.

(** One generation: the fields of [routeTable] the file reads. In the
    source [m] is a pointer to the matcher; what the field holds is the
    parameter [matcher] here, and the handler never reads it. *)
Record routeTable : Type := mkRouteTable {
  m : matcher;
  created : Time;
  validRoutes : goslice eskip_Route
}.

(** [Routing]: the atomic cell holding the current generation. *)
Record Routing : Type := mkRouting { r_routeTable : routeTable }.

Definition Load (r : Routing) : routeTable := r_routeTable r.
Definition Store (r : Routing) (rt : routeTable) : Routing :=
  {| r_routeTable := rt |}.

Definition slice (r : goslice eskip_Route) (offset limit : Z)
  : outcome (goslice eskip_Route) :=
  let offset := if len r <? offset then len r else offset in
  let end_ := int_add offset limit in
  let end_ := if len r <? end_ then len r else end_ in
  match subslice r offset end_ with
  | Panics => Panics
  | Returns result =>
      if is_nil result then Returns (Slice []) else Returns result
  end.

Definition extractParam (r : Request) (key : string) (defaultValue : Z)
  : Z * option error :=
  let param := Values_Get (Form r) key in
  if String.eqb param EmptyString then (defaultValue, None)
  else
    match Atoi param with
    | None => (0, Some (NumError "Atoi" param))
    | Some val =>
        if val <? 0 then
          (0, Some (Errorf ("invalid value `" +:+ Itoa val +:+ "` for `"
                            +:+ key +:+ "`")))
        else (val, None)
    end.

Definition extractPretty (r : Request) : PrettyPrintInfo :=
  match Form r !! "nopretty" with
  | None | Some [] => {| Pretty := true; IndentStr := "  " |}
  | Some (val :: _) =>
      if String.eqb val "0" || String.eqb val "false" then
        {| Pretty := true; IndentStr := "  " |}
      else {| Pretty := false; IndentStr := EmptyString |}
  end.

(** [encoding/json] on a [[]*eskip.Route]: the nil slice is [null], a
    non-nil slice an array of its encoded elements. *)
Definition json_Marshal (routes : goslice eskip_Route) : option string :=
  match routes with
  | nilSlice => Some "null"
  | Slice l =>
      parts ← mapM MarshalJSON l;
      Some ("[" +:+ String.concat "," parts +:+ "]")
  end.

(** [json.NewEncoder(w).Encode(v)]: the value is encoded in full before
    anything is written; on success the encoding and a newline go to
    [w]. The boolean is [err != nil]. *)
Definition Encode (w : ResponseWriter) (routes : goslice eskip_Route)
  : ResponseWriter * bool :=
  match json_Marshal routes with
  | None => (w, true)
  | Some b => (Write w (b +:+ newline), false)
  end.

(** [eskip.Fprint(w, info, routes...)] *)
Definition eskip_Fprint (w : ResponseWriter) (info : PrettyPrintInfo)
    (routes : goslice eskip_Route) : ResponseWriter :=
  Write w (Fprint info (elems_of routes)).

Definition acceptsJSON (req : Request) : bool :=
  Contains (Values_Get (ReqHeader req) "Accept") "application/json".

(** [Routing.ServeHTTP] *)
Definition ServeHTTP (r : Routing) (w : ResponseWriter) (req : Request)
  : outcome ResponseWriter :=
  if negb (String.eqb (Method req) "GET") && negb (String.eqb (Method req) "HEAD")
  then Returns (WriteHeader w StatusMethodNotAllowed)
  else
    let rt := Load r in
    let createdUnix := FormatInt (Unix (created rt)) in
    let ts := Values_Get (Form req) "timestamp" in
    if negb (String.eqb ts EmptyString) && negb (String.eqb createdUnix ts)
    then Returns (http_Error w "invalid timestamp" StatusBadRequest)
    else if String.eqb (Method req) "HEAD" then
      let w := Header_Set w routesTimestampName createdUnix in
      let w := Header_Set w routesCountName (Itoa (len (validRoutes rt))) in
      if acceptsJSON req
      then Returns (Header_Set w "Content-Type" "application/json")
      else Returns (Header_Set w "Content-Type" "text/plain")
    else
      match extractParam req "offset" 0 with
      | (_, Some _) => Returns (http_Error w "invalid offset" StatusBadRequest)
      | (offset, None) =>
          match extractParam req "limit" defaultRouteListingLimit with
          | (_, Some _) => Returns (http_Error w "invalid limit" StatusBadRequest)
          | (limit, None) =>
              let w := Header_Set w routesTimestampName createdUnix in
              let w := Header_Set w routesCountName (Itoa (len (validRoutes rt))) in
              match slice (validRoutes rt) offset limit with
              | Panics => Panics
              | Returns routes =>
                  if acceptsJSON req then
                    let w := Header_Set w "Content-Type" "application/json" in
                    match Encode w routes with
                    | (w, true) =>
                        Returns (http_Error w StatusText500 StatusInternalServerError)
                    | (w, false) => Returns w
                    end
                  else
                    let w := Header_Set w "Content-Type" "text/plain" in
                    Returns (eskip_Fprint w (extractPretty req) routes)
              end
          end
      end.

(** [RouteLookup] captures the matcher of one generation. *)
Record RouteLookup : Type := mkRouteLookup { rl_matcher : matcher }.

(** [Routing.Get] *)
Definition Get (r : Routing) : RouteLookup :=
  let rt := Load r in
  {| rl_matcher := m rt |}.

End routing.

Arguments routeTable : clear implicits.
Arguments Routing : clear implicits.
Arguments RouteLookup : clear implicits.

(** ** Lookups, with the matchers in memory

    The field [m] of a generation and the field [matcher] of a handle are
    pointers to a matcher: [Get] copies the pointer, and [Do] and [Route]
    call [match] on the object it points to. The matcher objects live in
    a memory from addresses to objects; a generation and a handle are
    the records above with addresses for matchers. *)

Section lookups.
Context {eskip_Route matcher Route httpRequest : Type}.
Context `{!Matching matcher Route httpRequest}.

Definition address : Type := positive.

(** [p.match(req)] for a pointer [p]: a call through a pointer that
    points to no matcher panics. *)
Definition match_at (mem : gmap address matcher) (p : address) (req : httpRequest)
  : outcome (option Route * gmap string string) :=
  match mem !! p with
  | Some mo => Returns (matcher_match mo req)
  | None => Panics
  end.

(** [Routing.Route] *)
Definition Routing_Route (mem : gmap address matcher)
    (r : Routing eskip_Route address) (req : httpRequest)
  : outcome (option Route * gmap string string) :=
  let rt := Load r in
  match_at mem (m rt) req.

(** [RouteLookup.Do] *)
Definition Do (mem : gmap address matcher) (rl : RouteLookup address)
    (req : httpRequest)
  : outcome (option Route * gmap string string) :=
  match_at mem (rl_matcher rl) req.

(** The memory of matchers and the routing cell. *)
Record state : Type := mkState {
  mem : gmap address matcher;
  routing : Routing eskip_Route address
}.

(** Modelled from the spec: the publication of a generation, whose
    producer ([receiveRouteMatcher]) is not part of this development. A
    generation is an immutable snapshot, never mutated once published,
    and the aggregator builds a new table and stores it: the matcher of
    the new generation is a new object, at an address not in use, and the
    receive loop of [startReceivingUpdates] stores the generation in the
    cell with [Store]. *)
Definition publish (st : state) (mo : matcher) (now : Time)
    (routes : goslice eskip_Route) : state :=
  let p := fresh (dom (mem st)) in
  let rt := {| m := p; created := now; validRoutes := routes |} in
  {| mem := <[p := mo]> (mem st); routing := Store (routing st) rt |}.

(** What the two kinds of task do: the update task publishes a
    generation, a reader looks a request up. *)
Inductive event : Type :=
| Publish (mo : matcher) (now : Time) (routes : goslice eskip_Route)
| Lookup (req : httpRequest).

(** One observation of a reader that holds the handle [rl]: the request,
    what [rl.Do] returned and what [r.Route] returned at that moment. *)
Record observation : Type := mkObservation {
  obs_req : httpRequest;
  obs_pinned : outcome (option Route * gmap string string);
  obs_latest : outcome (option Route * gmap string string)
}.

(** Runs the events in order. *)
Fixpoint observe (st : state) (rl : RouteLookup address) (es : list event)
  : list observation :=
  match es with
  | [] => []
  | Publish mo now routes :: es' => observe (publish st mo now routes) rl es'
  | Lookup req :: es' =>
      {| obs_req := req;
         obs_pinned := Do (mem st) rl req;
         obs_latest := Routing_Route (mem st) (routing st) req |} :: observe st rl es'
  end.

End lookups.

Arguments state : clear implicits.
Arguments event : clear implicits.
Arguments observation : clear implicits.

(** [MatchingOptions] is a [uint], carried as a [Z]. The constants come
    from one constant block: [MatchingOptionsNone] on its first line,
    [IgnoreTrailingSlash = 1 << iota] on its second, where [iota] is 1. *)
Definition MatchingOptionsNone : Z := 0.
Definition IgnoreTrailingSlash : Z := Z.shiftl 1 1.

(** [MatchingOptions.ignoreTrailingSlash] *)
Definition ignoreTrailingSlash (o : Z) : bool :=
  0 <? Z.land o IgnoreTrailingSlash.

Section routing_new.
Context {eskip_Route matcher : Type}.

(** [New], as far as the cell is concerned: [initialMatcher] is what
    [newMatcher(nil, MatchingOptionsNone)] returns and [now] is
    [time.Now().UTC()]; the field [validRoutes] of the first generation is
    left unset. The update tasks it starts are the [Publish] events. *)
Definition New (initialMatcher : matcher) (now : Time)
  : Routing eskip_Route matcher :=
  let rt := {| m := initialMatcher; created := now; validRoutes := nilSlice |} in
  {| r_routeTable := rt |}.

End routing_new.

(** ** [plugins.go]: loading a multi-type plugin *)

Section plugins.
Context {Spec PredicateSpec DataClient Plugin : Type}.

(** The dynamic type of a symbol, as the type assertions of the loaders
    tell them apart. *)
Inductive Symbol : Type :=
| InitPluginFunc
    (fn : list string ->
          option Spec * option PredicateSpec * option DataClient * option error)
| InitFilterFunc (fn : list string -> option Spec * option error)
| InitPredicateFunc (fn : list string -> option PredicateSpec * option error)
| InitDataClientFunc (fn : list string -> option DataClient * option error)
| OtherSymbol.

(** Package [plugin]: [plugin.Open] and the method [Lookup] of a plugin. *)
Record PluginHost : Type := mkPluginHost {
  plugin_Open : string -> Plugin + error;
  Plugin_Lookup : Plugin -> string -> Symbol + error
}.

(** [LoadMultiPlugin] *)
Definition LoadMultiPlugin (host : PluginHost) (path : string) (args : list string)
  : option Spec * option PredicateSpec * option DataClient * option error :=
  match plugin_Open host path with
  | inr err =>
      (None, None, None,
       Some (Errorf ("open multitype plugin " +:+ path +:+ ": "
                     +:+ Error_string err)))
  | inl mod_ =>
      match Plugin_Lookup host mod_ "InitPlugin" with
      | inr err =>
          (None, None, None,
           Some (Errorf ("lookup module symbol failed for " +:+ path +:+ ": "
                         +:+ Error_string err)))
      | inl sym =>
          match sym with
          | InitPluginFunc fn =>
              match fn args with
              | (_, _, _, Some err) =>
                  (None, None, None,
                   Some (Errorf ("plugin " +:+ path +:+ " returned: "
                                 +:+ Error_string err)))
              | (fltr, pred, dc, None) => (fltr, pred, dc, None)
              end
          | _ =>
              (None, None, None,
               Some (Errorf ("plugin " +:+ path
                             +:+ "'s InitPlugin function has wrong signature")))
          end
      end
  end.

End plugins.

(** ** [plugins.go]: the single-type loaders and plugin discovery *)

(** Paths and names are byte strings; [bytes] and [of_bytes] go to lists
    and back. *)
Definition bytes (s : string) : list ascii := list_ascii_of_string s.
Definition of_bytes (l : list ascii) : string := string_of_list_ascii l.

(** [strings.HasSuffix(s, suffix)]:
    [len(s) >= len(suffix) && s[len(s)-len(suffix):] == suffix]. *)
Definition HasSuffix (s suffix : string) : bool :=
  (length (bytes suffix) <=? length (bytes s))%nat &&
  bool_decide (drop (length (bytes s) - length (bytes suffix)) (bytes s) = bytes suffix).

Definition isPathSeparator (c : ascii) : bool := Ascii.eqb c "/".

Fixpoint strip_separators (l : list ascii) : list ascii :=
  match l with
  | c :: l' => if isPathSeparator c then strip_separators l' else l
  | [] => []
  end.

Fixpoint upto_separator (l : list ascii) : list ascii :=
  match l with
  | c :: l' => if isPathSeparator c then [] else c :: upto_separator l'
  | [] => []
  end.

(** [filepath.Base] on a system whose separator is [/] and whose paths
    have no volume name: trailing separators are stripped, the last
    element is what follows the last separator left; the empty path is
    [.], a path of separators only is [/]. Both loops of the Go function
    run from the end of the path, so they are written on the reversed
    bytes. *)
Definition Base (path : string) : string :=
  if String.eqb path EmptyString then "."
  else
    match rev (upto_separator (strip_separators (rev (bytes path)))) with
    | [] => "/"
    | element => of_bytes element
    end.

Section plugin_loading.
Context {Spec PredicateSpec DataClient Plugin : Type}.

Local Abbreviation Symbol := (@Symbol Spec PredicateSpec DataClient).
Local Abbreviation PluginHost := (@PluginHost Spec PredicateSpec DataClient Plugin).

(** [loadFilterPlugin] *)
Definition loadFilterPlugin (sym : Symbol) (path : string) (args : list string)
  : option Spec * option error :=
  match sym with
  | InitFilterFunc fn =>
      match fn args with
      | (_, Some err) =>
          (None, Some (Errorf ("plugin " +:+ path +:+ " returned: "
                               +:+ Error_string err)))
      | (spec, None) => (spec, None)
      end
  | _ =>
      (None, Some (Errorf ("plugin " +:+ path
                           +:+ "'s InitFilter function has wrong signature")))
  end.

(** [LoadFilterPlugin] *)
Definition LoadFilterPlugin (host : PluginHost) (path : string) (args : list string)
  : option Spec * option error :=
  match plugin_Open host path with
  | inr err =>
      (None, Some (Errorf ("open filter plugin " +:+ path +:+ ": "
                           +:+ Error_string err)))
  | inl mod_ =>
      match Plugin_Lookup host mod_ "InitFilter" with
      | inr err =>
          (None, Some (Errorf ("lookup module symbol failed for " +:+ path +:+ ": "
                               +:+ Error_string err)))
      | inl sym => loadFilterPlugin sym path args
      end
  end.

(** [loadPredicatePlugin] *)
Definition loadPredicatePlugin (sym : Symbol) (path : string) (args : list string)
  : option PredicateSpec * option error :=
  match sym with
  | InitPredicateFunc fn =>
      match fn args with
      | (_, Some err) =>
          (None, Some (Errorf ("plugin " +:+ path +:+ " returned: "
                               +:+ Error_string err)))
      | (spec, None) => (spec, None)
      end
  | _ =>
      (None, Some (Errorf ("plugin " +:+ path
                           +:+ "'s InitPredicate function has wrong signature")))
  end.

(** [LoadPredicatePlugin] *)
Definition LoadPredicatePlugin (host : PluginHost) (path : string) (args : list string)
  : option PredicateSpec * option error :=
  match plugin_Open host path with
  | inr err =>
      (None, Some (Errorf ("open predicate module " +:+ path +:+ ": "
                           +:+ Error_string err)))
  | inl mod_ =>
      match Plugin_Lookup host mod_ "InitPredicate" with
      | inr err =>
          (None, Some (Errorf ("lookup module symbol failed for " +:+ path +:+ ": "
                               +:+ Error_string err)))
      | inl sym => loadPredicatePlugin sym path args
      end
  end.

(** [loadDataClientPlugin] *)
Definition loadDataClientPlugin (sym : Symbol) (path : string) (args : list string)
  : option DataClient * option error :=
  match sym with
  | InitDataClientFunc fn =>
      match fn args with
      | (_, Some err) =>
          (None, Some (Errorf ("module " +:+ path +:+ " returned: "
                               +:+ Error_string err)))
      | (spec, None) => (spec, None)
      end
  | _ =>
      (None, Some (Errorf ("plugin " +:+ path
                           +:+ "'s InitDataClient function has wrong signature")))
  end.

(** [LoadDataClientPlugin] *)
Definition LoadDataClientPlugin (host : PluginHost) (path : string) (args : list string)
  : option DataClient * option error :=
  match plugin_Open host path with
  | inr err =>
      (None, Some (Errorf ("open data client module " +:+ path +:+ ": "
                           +:+ Error_string err)))
  | inl mod_ =>
      match Plugin_Lookup host mod_ "InitDataClient" with
      | inr err =>
          (None, Some (Errorf ("lookup module symbol failed for " +:+ path +:+ ": "
                               +:+ Error_string err)))
      | inl sym => loadDataClientPlugin sym path args
      end
  end.

(** The fields of [Options] that [findAndLoadPlugins] reads and writes.
    The custom lists hold interface values, which may be nil. *)
Record Options : Type := mkOptions {
  PluginDirs : list string;
  MultiPlugins : list (list string);
  FilterPlugins : list (list string);
  PredicatePlugins : list (list string);
  DataClientPlugins : list (list string);
  CustomFilters : list (option Spec);
  CustomPredicates : list (option PredicateSpec);
  CustomDataClients : list (option DataClient)
}.

(** One call of the function given to [filepath.Walk]: with an error, or
    with the path of a file or directory. *)
Inductive WalkEntry : Type :=
| WalkError (path : string)
| WalkInfo (path : string) (isDir : bool).

(** What [findAndLoadPlugins] runs against: the plugin host, the calls
    [filepath.Walk] makes for a root directory, the order in which
    [range] goes through a map (Go leaves it open), and the method [Name]
    of filter and predicate specs. *)
Record World : Type := mkWorld {
  host : PluginHost;
  Walk : string -> list WalkEntry;
  range_order : gmap string string -> list (string * string);
  Spec_Name : Spec -> string;
  PredicateSpec_Name : PredicateSpec -> string
}.

(** The state [findAndLoadPlugins] works on: the options it updates in
    place, the map [found] and the lines printed so far. *)
Record loadState : Type := mkLoadState {
  opts : Options;
  found : gmap string string;
  stdout : list string
}.

(** [fmt.Printf] of one line. *)
Definition printf (st : loadState) (line : string) : loadState :=
  {| opts := opts st; found := found st; stdout := stdout st ++ [line +:+ newline] |}.

Definition set_found (st : loadState) (f : gmap string string) : loadState :=
  {| opts := opts st; found := f; stdout := stdout st |}.

Definition appendFilter (st : loadState) (spec : option Spec) : loadState :=
  let o := opts st in
  {| opts :=
       {| PluginDirs := PluginDirs o; MultiPlugins := MultiPlugins o;
          FilterPlugins := FilterPlugins o; PredicatePlugins := PredicatePlugins o;
          DataClientPlugins := DataClientPlugins o;
          CustomFilters := (CustomFilters o ++ [spec])%list;
          CustomPredicates := CustomPredicates o;
          CustomDataClients := CustomDataClients o |};
     found := found st; stdout := stdout st |}.

Definition appendPredicate (st : loadState) (spec : option PredicateSpec) : loadState :=
  let o := opts st in
  {| opts :=
       {| PluginDirs := PluginDirs o; MultiPlugins := MultiPlugins o;
          FilterPlugins := FilterPlugins o; PredicatePlugins := PredicatePlugins o;
          DataClientPlugins := DataClientPlugins o;
          CustomFilters := CustomFilters o;
          CustomPredicates := (CustomPredicates o ++ [spec])%list;
          CustomDataClients := CustomDataClients o |};
     found := found st; stdout := stdout st |}.

Definition appendDataClient (st : loadState) (spec : option DataClient) : loadState :=
  let o := opts st in
  {| opts :=
       {| PluginDirs := PluginDirs o; MultiPlugins := MultiPlugins o;
          FilterPlugins := FilterPlugins o; PredicatePlugins := PredicatePlugins o;
          DataClientPlugins := DataClientPlugins o;
          CustomFilters := CustomFilters o;
          CustomPredicates := CustomPredicates o;
          CustomDataClients := (CustomDataClients o ++ [spec])%list |};
     found := found st; stdout := stdout st |}.

(** The function given to [filepath.Walk]: a file whose path ends in
    [.so] is recorded under its base name without the last three bytes.
    The slice expression [name[:len(name)-3]] panics on a shorter name. *)
Definition visit (st : loadState) (e : WalkEntry) : outcome loadState :=
  match e with
  | WalkError _ => Returns st
  | WalkInfo path isDir =>
      if isDir then Returns st
      else if HasSuffix path ".so" then
        let name := Base path in
        if (3 <=? length (bytes name))%nat then
          let name := of_bytes (take (length (bytes name) - 3) (bytes name)) in
          let st := set_found st (<[name := path]> (found st)) in
          Returns (printf st ("found plugin " +:+ name +:+ " at " +:+ path))
        else Panics
      else Returns st
  end.

Fixpoint walk_entries (es : list WalkEntry) (st : loadState) : outcome loadState :=
  match es with
  | [] => Returns st
  | e :: es' =>
      match visit st e with
      | Panics => Panics
      | Returns st' => walk_entries es' st'
      end
  end.

(** The first loop: [filepath.Walk] on every plugin directory. *)
Fixpoint findPlugins (W : World) (dirs : list string) (st : loadState)
  : outcome loadState :=
  match dirs with
  | [] => Returns st
  | dir :: dirs' =>
      match walk_entries (Walk W dir) st with
      | Panics => Panics
      | Returns st' => findPlugins W dirs' st'
      end
  end.

(** The loop over [o.MultiPlugins]. [plug[0]] panics on an empty entry. *)
Fixpoint loadMultiPlugins (W : World) (plugs : list (list string)) (st : loadState)
  : outcome loadState :=
  match plugs with
  | [] => Returns st
  | [] :: _ => Panics
  | (name :: args) :: plugs' =>
      match found st !! name with
      | None =>
          loadMultiPlugins W plugs'
            (printf st ("mutlitype plugin " +:+ name +:+ " not found in plugin dirs"))
      | Some path =>
          match LoadMultiPlugin (host W) path args with
          | (_, _, _, Some err) =>
              loadMultiPlugins W plugs'
                (printf st ("failed to load plugin " +:+ path +:+ ": "
                            +:+ Error_string err))
          | (fltr, pred, dc, None) =>
              let st := match fltr with Some _ => appendFilter st fltr | None => st end in
              let st := match pred with Some _ => appendPredicate st pred | None => st end in
              let st := match dc with Some _ => appendDataClient st dc | None => st end in
              let st := printf st ("loaded plugin " +:+ name +:+ " from " +:+ path) in
              loadMultiPlugins W plugs' (set_found st (delete name (found st)))
          end
      end
  end.

(** The loop over [o.FilterPlugins]. The spec is appended as it comes;
    [spec.Name()] on a nil spec panics. *)
Fixpoint loadFilterPlugins (W : World) (plugs : list (list string)) (st : loadState)
  : outcome loadState :=
  match plugs with
  | [] => Returns st
  | [] :: _ => Panics
  | (name :: args) :: plugs' =>
      match found st !! name with
      | None =>
          loadFilterPlugins W plugs'
            (printf st ("filter plugin " +:+ name +:+ " not found in plugin dirs"))
      | Some path =>
          match LoadFilterPlugin (host W) path args with
          | (_, Some err) =>
              loadFilterPlugins W plugs'
                (printf st ("failed to load plugin " +:+ path +:+ ": "
                            +:+ Error_string err))
          | (spec, None) =>
              let st := appendFilter st spec in
              match spec with
              | None => Panics
              | Some sp =>
                  let st := printf st ("loaded plugin " +:+ name +:+ " ("
                                       +:+ Spec_Name W sp +:+ ") from " +:+ path) in
                  loadFilterPlugins W plugs' (set_found st (delete name (found st)))
              end
          end
      end
  end.

(** The loop over [o.PredicatePlugins]. *)
Fixpoint loadPredicatePlugins (W : World) (plugs : list (list string)) (st : loadState)
  : outcome loadState :=
  match plugs with
  | [] => Returns st
  | [] :: _ => Panics
  | (name :: args) :: plugs' =>
      match found st !! name with
      | None =>
          loadPredicatePlugins W plugs'
            (printf st ("predicate plugin " +:+ name +:+ " not found in plugin dirs"))
      | Some path =>
          match LoadPredicatePlugin (host W) path args with
          | (_, Some err) =>
              loadPredicatePlugins W plugs'
                (printf st ("failed to load plugin " +:+ path +:+ ": "
                            +:+ Error_string err))
          | (spec, None) =>
              let st := appendPredicate st spec in
              match spec with
              | None => Panics
              | Some sp =>
                  let st := printf st ("loaded plugin " +:+ name +:+ " ("
                                       +:+ PredicateSpec_Name W sp +:+ ") from "
                                       +:+ path) in
                  loadPredicatePlugins W plugs' (set_found st (delete name (found st)))
              end
          end
      end
  end.

(** The loop over [o.DataClientPlugins]. *)
Fixpoint loadDataClientPlugins (W : World) (plugs : list (list string)) (st : loadState)
  : outcome loadState :=
  match plugs with
  | [] => Returns st
  | [] :: _ => Panics
  | (name :: args) :: plugs' =>
      match found st !! name with
      | None =>
          loadDataClientPlugins W plugs'
            (printf st ("data client plugin " +:+ name +:+ " not found in plugin dirs"))
      | Some path =>
          match LoadDataClientPlugin (host W) path args with
          | (_, Some err) =>
              loadDataClientPlugins W plugs'
                (printf st ("failed to load plugin " +:+ path +:+ ": "
                            +:+ Error_string err))
          | (spec, None) =>
              let st := appendDataClient st spec in
              let st := printf st ("loaded plugin " +:+ name +:+ " from " +:+ path) in
              loadDataClientPlugins W plugs' (set_found st (delete name (found st)))
          end
      end
  end.

(** The three attempts of the last loop on an opened plugin. Each gives
    the state and whether the loop body goes on ([false] is [continue]). *)
Definition autoFilter (W : World) (mod_ : Plugin) (name path : string) (st : loadState)
  : loadState * bool :=
  match Plugin_Lookup (host W) mod_ "InitFilter" with
  | inr _ => (st, true)
  | inl sym =>
      match loadFilterPlugin sym path [] with
      | (_, Some err) =>
          (printf st ("filter plugin " +:+ path +:+ " returned: "
                      +:+ Error_string err), false)
      | (spec, None) =>
          (printf (appendFilter st spec)
             ("filter plugin " +:+ name +:+ " loaded from " +:+ path), true)
      end
  end.

Definition autoPredicate (W : World) (mod_ : Plugin) (name path : string)
    (st : loadState) : loadState * bool :=
  match Plugin_Lookup (host W) mod_ "InitPredicate" with
  | inr _ => (st, true)
  | inl sym =>
      match loadPredicatePlugin sym path [] with
      | (_, Some err) =>
          (printf st ("predicate plugin " +:+ path +:+ " returned: "
                      +:+ Error_string err), false)
      | (spec, None) =>
          (printf (appendPredicate st spec)
             ("predicate plugin " +:+ name +:+ " loaded from " +:+ path), true)
      end
  end.

Definition autoDataClient (W : World) (mod_ : Plugin) (name path : string)
    (st : loadState) : loadState * bool :=
  match Plugin_Lookup (host W) mod_ "InitDataClient" with
  | inr _ => (st, true)
  | inl sym =>
      match loadDataClientPlugin sym path [] with
      | (_, Some err) =>
          (printf st ("data client plugin " +:+ path +:+ " returned: "
                      +:+ Error_string err), false)
      | (spec, None) =>
          (printf (appendDataClient st spec)
             ("data client plugin " +:+ name +:+ " loaded from " +:+ path), true)
      end
  end.

(** The body of the last loop, for one entry of [found]. *)
Definition autoLoad (W : World) (name path : string) (st : loadState) : loadState :=
  let st := printf st ("attempting to load plugin from " +:+ path) in
  match plugin_Open (host W) path with
  | inr err =>
      printf st ("open plugin " +:+ name +:+ " from " +:+ path +:+ ": "
                 +:+ Error_string err)
  | inl mod_ =>
      match autoFilter W mod_ name path st with
      | (st, false) => st
      | (st, true) =>
          match autoPredicate W mod_ name path st with
          | (st, false) => st
          | (st, true) =>
              let st := printf st ("checking " +:+ name +:+ " for data client in "
                                   +:+ path) in
              fst (autoDataClient W mod_ name path st)
          end
      end
  end.

(** The last loop: every plugin still in [found], in the order [range]
    takes. *)
Definition autoLoadAll (W : World) (st : loadState) : loadState :=
  foldl (fun st entry => autoLoad W entry.1 entry.2 st) st (range_order W (found st)).

(** [findAndLoadPlugins]: the options as they are left, with the lines
    printed, or a panic. *)
Definition findAndLoadPlugins (W : World) (o : Options) : outcome loadState :=
  let st := {| opts := o; found := ∅; stdout := [] |} in
  match findPlugins W (PluginDirs (opts st)) st with
  | Panics => Panics
  | Returns st =>
      match loadMultiPlugins W (MultiPlugins (opts st)) st with
      | Panics => Panics
      | Returns st =>
          match loadFilterPlugins W (FilterPlugins (opts st)) st with
          | Panics => Panics
          | Returns st =>
              match loadPredicatePlugins W (PredicatePlugins (opts st)) st with
              | Panics => Panics
              | Returns st =>
                  match loadDataClientPlugins W (DataClientPlugins (opts st)) st with
                  | Panics => Panics
                  | Returns st => Returns (autoLoadAll W st)
                  end
              end
          end
      end
  end.

End plugin_loading.

Arguments Options : clear implicits.
Arguments World : clear implicits.
Arguments loadState : clear implicits.

(** ** A small concrete instance, for running the definitions

    Routes are their identifiers; the JSON form of a route is its
    identifier in braces and the printer puts one route on a line, indented
    when asked to. The matcher is a list of (path, route) pairs looked up
    by the first value of the form field [path]. *)

Module Demo.

Definition quote_id (id : string) : string := "{" +:+ id +:+ "}".

Definition print_route (info : PrettyPrintInfo) (id : string) : string :=
  IndentStr info +:+ id +:+ ";" +:+ newline.

#[export] Instance demo_eskip : Eskip string := {|
  MarshalJSON := fun id => Some (quote_id id);
  Fprint := fun info ids => String.concat EmptyString (map (print_route info) ids)
|}.

Definition ids (n : nat) : list string :=
  map (fun i => "r" +:+ Itoa (Z.of_nat i)) (seq 1 n).

(** A generation with ten valid routes [r1 .. r10], created at Unix
    second 1500000000. *)
Definition table10 : routeTable string (list (string * string)) :=
  {| m := [("/a", "r1"); ("/b", "r2")];
     created := {| Unix := 1500000000 |};
     validRoutes := Slice (ids 10) |}.

(** The generation [New] starts with: no routes, [validRoutes] unset. *)
Definition table0 : routeTable string (list (string * string)) :=
  {| m := [];
     created := {| Unix := 1499999999 |};
     validRoutes := nilSlice |}.

Definition routing10 : Routing string (list (string * string)) :=
  {| r_routeTable := table10 |}.

Definition routing0 : Routing string (list (string * string)) :=
  {| r_routeTable := table0 |}.

Definition query (kvs : list (string * string)) : gmap string (list string) :=
  list_to_map (map (fun kv => (kv.1, [kv.2])) kvs).

Definition request (method : string) (kvs : list (string * string)) (accept : string)
  : Request :=
  {| Method := method;
     Form := query kvs;
     ReqHeader := {[ "Accept" := [accept] ]} |}.

Definition get_page : Request :=
  request "GET" [("offset", "8"); ("limit", "5")] "text/plain".
Definition get_page_json : Request :=
  request "GET" [("offset", "8"); ("limit", "5")] "text/html, application/json".
Definition get_first_two : Request :=
  request "GET" [("limit", "2")] "text/plain".
Definition get_first_two_flat : Request :=
  request "GET" [("limit", "2"); ("nopretty", "1")] "text/plain".
Definition get_plain : Request := request "GET" [] "text/plain".
Definition get_plain_json : Request := request "GET" [] "application/json".
Definition get_stale : Request :=
  request "GET" [("timestamp", "12")] "text/plain".
Definition get_stale_json : Request :=
  request "GET" [("timestamp", "12")] "application/json".
Definition get_current : Request :=
  request "GET" [("timestamp", "1500000000"); ("limit", "2")] "text/plain".
Definition get_negative_limit : Request :=
  request "GET" [("limit", "-3")] "text/plain".
Definition get_huge_limit : Request :=
  request "GET" [("offset", "1"); ("limit", "9223372036854775807")] "text/plain".
Definition head_plain : Request := request "HEAD" [] "text/plain".
Definition head_bad_offset : Request :=
  request "HEAD" [("offset", "abc")] "text/plain".
Definition post_plain : Request := request "POST" [] "text/plain".
Definition serve (r : Routing string (list (string * string))) (req : Request) : outcome ResponseWriter :=
  ServeHTTP r newRecorder req.

End Demo.

(** A memory with one matcher and a cell pointing to it. A matcher is a
    list of (path, route) pairs, and a request is matched by its path
    alone. *)
Module DemoLookups.

Record path_request : Type := mkPathRequest {
  req_path : string;
  req_host : string
}.

Fixpoint find_route (tbl : list (string * string)) (path : string) : option string :=
  match tbl with
  | [] => None
  | (p, id) :: tbl' => if String.eqb p path then Some id else find_route tbl' path
  end.

#[export] Instance demo_matching
  : Matching (list (string * string)) string path_request := {|
  matcher_match := fun tbl req => (find_route tbl (req_path req), ∅)
|}.

Definition first_state : state string (list (string * string)) :=
  {| mem := {[ 1%positive := [("/a", "r1"); ("/b", "r2")] ]};
     routing := {| r_routeTable :=
                     {| m := 1%positive;
                        created := {| Unix := 1500000000 |};
                        validRoutes := Slice (Demo.ids 2) |} |} |}.

Definition lookup_a : path_request :=
  {| req_path := "/a"; req_host := "example.org" |}.

(** A reader looks [/a] up, a generation in which [/a] leads to [r9] is
    published, the reader looks [/a] up again. *)
Definition lookup_publish_lookup
  : list (event string (list (string * string)) path_request) :=
  [Lookup lookup_a;
   Publish [("/a", "r9")] {| Unix := 1500000060 |} (Slice (Demo.ids 1));
   Lookup lookup_a].

End DemoLookups.

(** A second instance in which a route may fail to encode: routes are
    optional identifiers, and the route [None] has no JSON form. *)
Module DemoFragile.

#[export] Instance fragile_eskip : Eskip (option string) := {|
  MarshalJSON := fun route => Demo.quote_id <$> route;
  Fprint := fun info routes =>
    String.concat EmptyString
      (map (fun route => Demo.print_route info (default "?" route)) routes)
|}.

Definition fragile_table : routeTable (option string) (list (string * string)) :=
  {| m := [];
     created := {| Unix := 1500000000 |};
     validRoutes := Slice [Some "r1"; None; Some "r3"] |}.

Definition fragile_routing : Routing (option string) (list (string * string)) :=
  {| r_routeTable := fragile_table |}.

End DemoFragile.

(** A plugin directory with a multi-type plugin, a filter plugin whose
    init function fails, a plain file and an unreadable entry. Specs and
    data clients are their names, an opened plugin is its path. *)
Module DemoPlugins.

Definition multi_init (args : list string)
  : option string * option string * option string * option error :=
  (Some ("filter:" +:+ String.concat "," args), None, Some "client", None).

Definition broken_init (args : list string) : option string * option error :=
  (Some "half-built", Some (Errorf "no configuration")).

Definition good_predicate_init (args : list string) : option string * option error :=
  (Some "predicate", None).

Definition demo_host : @PluginHost string string string string :=
  {| plugin_Open := fun path =>
       if String.eqb path "/plugins/multi.so" || String.eqb path "/plugins/sub/broken.so"
       then inl path
       else inr (Errorf "file does not exist");
     Plugin_Lookup := fun mod_ symName =>
       if String.eqb mod_ "/plugins/multi.so" && String.eqb symName "InitPlugin"
       then inl (InitPluginFunc multi_init)
       else if String.eqb mod_ "/plugins/sub/broken.so" && String.eqb symName "InitFilter"
       then inl (InitFilterFunc broken_init)
       else if String.eqb mod_ "/plugins/sub/broken.so" && String.eqb symName "InitPredicate"
       then inl (InitPredicateFunc good_predicate_init)
       else inr (Errorf "symbol not found") |}.

Definition demo_walk (root : string) : list WalkEntry :=
  if String.eqb root "/plugins" then
    [WalkInfo "/plugins" true;
     WalkError "/plugins/locked";
     WalkInfo "/plugins/multi.so" false;
     WalkInfo "/plugins/readme.txt" false;
     WalkInfo "/plugins/sub" true;
     WalkInfo "/plugins/sub/broken.so" false]
  else [WalkError root].

Definition demo_world : World string string string string :=
  {| host := demo_host;
     Walk := demo_walk;
     range_order := map_to_list;
     Spec_Name := fun sp => sp;
     PredicateSpec_Name := fun sp => sp |}.

(** A world whose only plugin file is the multi-type plugin. *)
Definition single_world : World string string string string :=
  {| host := demo_host;
     Walk := fun root => [WalkInfo root true; WalkInfo "/plugins/multi.so" false];
     range_order := map_to_list;
     Spec_Name := fun sp => sp;
     PredicateSpec_Name := fun sp => sp |}.

(** A world whose only plugin file is the one with the failing filter. *)
Definition broken_world : World string string string string :=
  {| host := demo_host;
     Walk := fun root => [WalkInfo root true; WalkInfo "/plugins/sub/broken.so" false];
     range_order := map_to_list;
     Spec_Name := fun sp => sp;
     PredicateSpec_Name := fun sp => sp |}.

Definition no_options : Options string string string :=
  {| PluginDirs := []; MultiPlugins := []; FilterPlugins := [];
     PredicatePlugins := []; DataClientPlugins := [];
     CustomFilters := [Some "builtin"]; CustomPredicates := [];
     CustomDataClients := [] |}.

Definition demo_options : Options string string string :=
  {| PluginDirs := ["/plugins"; "/missing"];
     MultiPlugins := [["multi"; "a"; "b"]; ["absent"]];
     FilterPlugins := []; PredicatePlugins := []; DataClientPlugins := [];
     CustomFilters := [Some "builtin"]; CustomPredicates := [];
     CustomDataClients := [] |}.

Definition single_options : Options string string string :=
  {| PluginDirs := ["/plugins"];
     MultiPlugins := [["multi"; "a"; "b"]];
     FilterPlugins := []; PredicatePlugins := []; DataClientPlugins := [];
     CustomFilters := [Some "builtin"]; CustomPredicates := [];
     CustomDataClients := [] |}.

Definition discover_options : Options string string string :=
  {| PluginDirs := ["/plugins"];
     MultiPlugins := [];
     FilterPlugins := []; PredicatePlugins := []; DataClientPlugins := [];
     CustomFilters := [Some "builtin"]; CustomPredicates := [];
     CustomDataClients := [] |}.

Definition empty_entry_options : Options string string string :=
  {| PluginDirs := ["/plugins"];
     MultiPlugins := [];
     FilterPlugins := [["absent"]; []]; PredicatePlugins := [];
     DataClientPlugins := [];
     CustomFilters := []; CustomPredicates := []; CustomDataClients := [] |}.

(** A plugin that exports the three single-type init functions, and one
    whose [InitFilter] returns neither a spec nor an error. *)
Definition full_host : @PluginHost string string string string :=
  {| plugin_Open := fun path => inl path;
     Plugin_Lookup := fun mod_ symName =>
       if String.eqb symName "InitFilter"
       then inl (InitFilterFunc (fun _ => (Some "f", None)))
       else if String.eqb symName "InitPredicate"
       then inl (InitPredicateFunc (fun _ => (Some "p", None)))
       else if String.eqb symName "InitDataClient"
       then inl (InitDataClientFunc (fun _ => (None, None)))
       else inr (Errorf "symbol not found") |}.

Definition full_world : World string string string string :=
  {| host := full_host;
     Walk := fun root => [WalkInfo root true; WalkInfo "/plugins/full.so" false];
     range_order := map_to_list;
     Spec_Name := fun sp => sp;
     PredicateSpec_Name := fun sp => sp |}.

Definition silent_host : @PluginHost string string string string :=
  {| plugin_Open := fun path => inl path;
     Plugin_Lookup := fun mod_ symName =>
       if String.eqb symName "InitFilter"
       then inl (InitFilterFunc (fun _ => (None, None)))
       else inr (Errorf "symbol not found") |}.

Definition silent_world : World string string string string :=
  {| host := silent_host;
     Walk := fun root => [WalkInfo root true; WalkInfo "/plugins/silent.so" false];
     range_order := map_to_list;
     Spec_Name := fun sp => sp;
     PredicateSpec_Name := fun sp => sp |}.

Definition silent_options : Options string string string :=
  {| PluginDirs := ["/plugins"];
     MultiPlugins := [];
     FilterPlugins := [["silent"; "x"]]; PredicatePlugins := [];
     DataClientPlugins := [];
     CustomFilters := []; CustomPredicates := []; CustomDataClients := [] |}.

(** A world without any plugin file, and options that name plugins all
    the same. *)
Definition bare_world : World string string string string :=
  {| host := demo_host;
     Walk := fun root => [WalkInfo root true; WalkInfo "/plugins/readme.txt" false];
     range_order := map_to_list;
     Spec_Name := fun sp => sp;
     PredicateSpec_Name := fun sp => sp |}.

Definition hopeful_options : Options string string string :=
  {| PluginDirs := ["/plugins"];
     MultiPlugins := [["multi"; "a"]];
     FilterPlugins := [["broken"]]; PredicatePlugins := [];
     DataClientPlugins := [];
     CustomFilters := [Some "builtin"]; CustomPredicates := [];
     CustomDataClients := [] |}.

Definition start (o : Options string string string) : loadState string string string :=
  {| opts := o; found := ∅; stdout := [] |}.

End DemoPlugins.

(** ** Vocabulary of the statements *)

Section vocabulary.
Context {eskip_Route matcher : Type}.

(** The generation stamp the handler compares with and reports. *)
Definition createdUnix (r : Routing eskip_Route matcher) : string :=
  FormatInt (Unix (created (Load r))).

(** The number of valid routes, as the handler reports it. *)
Definition routesCount (r : Routing eskip_Route matcher) : string :=
  Itoa (len (validRoutes (Load r))).

(** The request passes the timestamp check. *)
Definition timestampOK (r : Routing eskip_Route matcher) (req : Request) : Prop :=
  Values_Get (Form req) "timestamp" = EmptyString \/
  Values_Get (Form req) "timestamp" = createdUnix r.

(** The form field [key] has a non-empty value that is not a
    non-negative integer. *)
Definition badParam (req : Request) (key : string) : Prop :=
  Values_Get (Form req) key <> EmptyString /\
  (Atoi (Values_Get (Form req) key) = None \/
   exists v, Atoi (Values_Get (Form req) key) = Some v /\ v < 0).

(** The same request with the form field [key] removed, or set to the
    single value [v]. *)
Definition without_param (req : Request) (key : string) : Request :=
  {| Method := Method req;
     Form := delete key (Form req);
     ReqHeader := ReqHeader req |}.

Definition with_param (req : Request) (key v : string) : Request :=
  {| Method := Method req;
     Form := <[key := [v]]> (Form req);
     ReqHeader := ReqHeader req |}.

(** The routes of the requested page: [limit] routes from position
    [offset] on, or as many as there are. *)
Definition pageOf (r : Routing eskip_Route matcher) (req : Request)
  : list eskip_Route :=
  take (Z.to_nat (extractParam req "limit" defaultRouteListingLimit).1)
    (drop (Z.to_nat (extractParam req "offset" 0).1)
       (elems_of (validRoutes (Load r)))).

(** The same request with another method. *)
Definition with_method (req : Request) (method : string) : Request :=
  {| Method := method;
     Form := Form req;
     ReqHeader := ReqHeader req |}.

(** The three headers of a listing, on a fresh response. *)
Definition listingHeaders (r : Routing eskip_Route matcher) (contentType : string)
  : ResponseWriter :=
  Header_Set
    (Header_Set
       (Header_Set newRecorder routesTimestampName (createdUnix r))
       routesCountName (routesCount r))
    "Content-Type" contentType.

End vocabulary.

Section plugin_vocabulary.
Context {Spec PredicateSpec DataClient Plugin : Type}.

(** [range] goes through every entry of a map once, in some order. *)
Definition range_is_fair (W : World Spec PredicateSpec DataClient Plugin) : Prop :=
  forall found : gmap string string, range_order W found ≡ₚ map_to_list found.

(** The options [o'] are the options [o] with specs appended to the
    custom lists, and nothing else changed. *)
Definition extends (o o' : Options Spec PredicateSpec DataClient) : Prop :=
  PluginDirs o' = PluginDirs o /\
  MultiPlugins o' = MultiPlugins o /\
  FilterPlugins o' = FilterPlugins o /\
  PredicatePlugins o' = PredicatePlugins o /\
  DataClientPlugins o' = DataClientPlugins o /\
  CustomFilters o `prefix_of` CustomFilters o' /\
  CustomPredicates o `prefix_of` CustomPredicates o' /\
  CustomDataClients o `prefix_of` CustomDataClients o'.

(** The walk entry is a file whose path ends in [.so]. *)
Definition is_plugin_file (e : WalkEntry) : bool :=
  match e with
  | WalkError _ => false
  | WalkInfo path isDir => negb isDir && HasSuffix path ".so"
  end.

(** An interface value as the element it adds to a list when it is not
    nil. *)
Definition nonnil {A : Type} (x : option A) : list (option A) :=
  match x with
  | Some _ => [x]
  | None => []
  end.

End plugin_vocabulary.

(** The number a string of decimal digits denotes, read from the left
    with [acc] for the digits already read. *)
Fixpoint uint_val (d : Decimal.uint) (acc : Z) : Z :=
  match d with
  | Decimal.Nil => acc
  | Decimal.D0 d => uint_val d (acc * 10 + 0)
  | Decimal.D1 d => uint_val d (acc * 10 + 1)
  | Decimal.D2 d => uint_val d (acc * 10 + 2)
  | Decimal.D3 d => uint_val d (acc * 10 + 3)
  | Decimal.D4 d => uint_val d (acc * 10 + 4)
  | Decimal.D5 d => uint_val d (acc * 10 + 5)
  | Decimal.D6 d => uint_val d (acc * 10 + 6)
  | Decimal.D7 d => uint_val d (acc * 10 + 7)
  | Decimal.D8 d => uint_val d (acc * 10 + 8)
  | Decimal.D9 d => uint_val d (acc * 10 + 9)
  end.

(** * Properties *)

Import Demo DemoLookups.

(** ** Arithmetic on [int] and the slice expression *)

Lemma wrap_in_range (z : Z) : minInt <= z <= maxInt -> wrap z = z.
Proof.
  unfold minInt, maxInt, wrap. intros Hz.
  rewrite Z.mod_small; lia.
Qed.

Lemma wrap_overflow (z : Z) :
  maxInt < z <= maxInt + maxInt -> wrap z = z - 2 ^ 64.
Proof.
  unfold maxInt, wrap. intros Hz.
  replace (z + 2 ^ 63) with ((z + 2 ^ 63 - 2 ^ 64) + 1 * 2 ^ 64) by lia.
  rewrite Z.mod_add by lia.
  rewrite Z.mod_small; lia.
Qed.

Lemma len_nonneg {A} (s : goslice A) : 0 <= len s.
Proof. unfold len. lia. Qed.

Section slice_facts.
Context {eskip_Route : Type}.
Implicit Types (r : goslice eskip_Route) (offset limit : Z).

(** Within the range of [int], [slice] returns the page as a non-nil
    slice: [limit] routes from position [offset] on, or as many as
    there are. *)
Lemma slice_in_range r offset limit :
  0 <= offset -> 0 <= limit -> Z.min offset (len r) + limit <= maxInt ->
  slice r offset limit =
    Returns (Slice (take (Z.to_nat limit) (drop (Z.to_nat offset) (elems_of r)))).
Proof.
  intros Ho Hl Hsum. pose proof (len_nonneg r) as Hn.
  unfold slice, int_add.
  set (off := if len r <? offset then len r else offset).
  assert (Hoff : off = Z.min offset (len r)).
  { unfold off. destruct (Z.ltb_spec (len r) offset); lia. }
  rewrite wrap_in_range by (unfold minInt; lia).
  set (hi := if len r <? off + limit then len r else off + limit).
  assert (Hhi : hi = Z.min (off + limit) (len r)).
  { unfold hi. destruct (Z.ltb_spec (len r) (off + limit)); lia. }
  unfold subslice.
  replace ((0 <=? off) && (off <=? hi) && (hi <=? len r)) with true
    by (symmetry; rewrite !andb_true_iff, !Z.leb_le; lia).
  destruct r as [|l]; simpl.
  { rewrite drop_nil, take_nil. reflexivity. }
  do 2 f_equal. unfold len in *. simpl in *.
  destruct (Z_le_gt_dec offset (Z.of_nat (length l))) as [Hle|Hgt].
  - replace off with offset in * by lia.
    destruct (Z_le_gt_dec (offset + limit) (Z.of_nat (length l))).
    + f_equal. lia.
    + rewrite !take_ge; [reflexivity | |]; rewrite length_drop; lia.
  - rewrite !drop_ge by lia. rewrite !take_nil. reflexivity.
Qed.

(** The length of the page. *)
Lemma slice_length r offset limit :
  0 <= offset -> 0 <= limit -> Z.min offset (len r) + limit <= maxInt ->
  exists page,
    slice r offset limit = Returns page /\
    len page = Z.min limit (len r - Z.min offset (len r)).
Proof.
  intros Ho Hl Hsum. eexists. split; [by apply slice_in_range|].
  unfold len. simpl. rewrite length_take, length_drop. lia.
Qed.

(** Past the range of [int] the sum wraps to a negative bound and the
    slice expression panics. *)
Lemma slice_overflow r offset limit :
  0 <= offset <= maxInt -> 0 <= limit <= maxInt ->
  maxInt < Z.min offset (len r) + limit ->
  slice r offset limit = Panics.
Proof.
  intros Ho Hl Hsum. pose proof (len_nonneg r) as Hn0.
  unfold slice, int_add.
  set (off := if len r <? offset then len r else offset).
  assert (Hoff : off = Z.min offset (len r)).
  { unfold off. destruct (Z.ltb_spec (len r) offset); lia. }
  rewrite wrap_overflow by lia.
  assert (Hneg : off + limit - 2 ^ 64 < 0) by (unfold maxInt in *; lia).
  destruct (Z.ltb_spec (len r) (off + limit - 2 ^ 64)); [lia|].
  unfold subslice.
  replace (off <=? off + limit - 2 ^ 64) with false
    by (symmetry; apply Z.leb_gt; lia).
  rewrite andb_false_r. reflexivity.
Qed.

(** So whenever [slice] returns on parameters the handler accepts, it
    returns the page. *)
Lemma slice_returns r offset limit page :
  0 <= offset <= maxInt -> 0 <= limit <= maxInt ->
  slice r offset limit = Returns page ->
  page = Slice (take (Z.to_nat limit) (drop (Z.to_nat offset) (elems_of r))).
Proof.
  intros Ho Hl Hs.
  destruct (Z_le_gt_dec (Z.min offset (len r) + limit) maxInt) as [Hle|Hgt].
  - rewrite slice_in_range in Hs by lia. by inversion Hs.
  - rewrite slice_overflow in Hs by lia. discriminate.
Qed.

(** A negative offset or limit is not clamped: the slice expression
    panics on it. *)
Lemma slice_negative_offset r offset limit :
  minInt <= offset < 0 -> 0 <= limit <= maxInt ->
  slice r offset limit = Panics.
Proof.
  intros Ho Hl. pose proof (len_nonneg r) as Hn0.
  unfold slice.
  destruct (Z.ltb_spec (len r) offset); [lia|].
  unfold subslice.
  replace (0 <=? offset) with false by (symmetry; apply Z.leb_gt; lia).
  by destruct (_ <? _).
Qed.

End slice_facts.

(** ** The handler, branch by branch *)

Section handler_facts.
Context {eskip_Route : Type} `{!Eskip eskip_Route} {matcher : Type}.
Implicit Types (r : Routing eskip_Route matcher) (req : Request)
  (w : ResponseWriter).

Lemma status_http_Error w msg c : code w = None -> status (http_Error w msg c) = c.
Proof. intros Hc. unfold http_Error, Write, WriteHeader, status. simpl. by rewrite Hc. Qed.

Lemma ServeHTTP_other_method r w req :
  Method req <> "GET" -> Method req <> "HEAD" ->
  ServeHTTP r w req = Returns (WriteHeader w StatusMethodNotAllowed).
Proof.
  intros HG HH. unfold ServeHTTP.
  apply String.eqb_neq in HG, HH. by rewrite HG, HH.
Qed.

Lemma ServeHTTP_bad_timestamp r w req :
  Method req = "GET" \/ Method req = "HEAD" ->
  Values_Get (Form req) "timestamp" <> EmptyString ->
  Values_Get (Form req) "timestamp" <> createdUnix r ->
  ServeHTTP r w req = Returns (http_Error w "invalid timestamp" StatusBadRequest).
Proof.
  intros HM Hne Hdiff. unfold ServeHTTP.
  replace (negb (String.eqb (Method req) "GET") && negb (String.eqb (Method req) "HEAD"))
    with false by (by destruct HM as [-> | ->]).
  apply String.eqb_neq in Hne. rewrite Hne.
  assert (String.eqb (createdUnix r) (Values_Get (Form req) "timestamp") = false) as Hd
    by (apply String.eqb_neq; congruence).
  unfold createdUnix in Hd. by rewrite Hd.
Qed.

Lemma timestamp_guard_passes r req :
  timestampOK r req ->
  negb (String.eqb (Values_Get (Form req) "timestamp") EmptyString)
  && negb (String.eqb (createdUnix r) (Values_Get (Form req) "timestamp")) = false.
Proof.
  intros [-> | ->]; [reflexivity|].
  rewrite (String.eqb_refl (createdUnix r)). apply andb_false_r.
Qed.

Lemma timestamp_guard_fails r req :
  negb (String.eqb (Values_Get (Form req) "timestamp") EmptyString)
  && negb (String.eqb (createdUnix r) (Values_Get (Form req) "timestamp")) = false ->
  timestampOK r req.
Proof.
  intros H. apply andb_false_iff in H as [H|H]; apply negb_false_iff in H.
  - left. by apply String.eqb_eq.
  - right. symmetry. by apply String.eqb_eq.
Qed.

Lemma ServeHTTP_HEAD r req :
  Method req = "HEAD" -> timestampOK r req ->
  ServeHTTP r newRecorder req =
    Returns (listingHeaders r
               (if acceptsJSON req then "application/json" else "text/plain")).
Proof.
  intros HM Hts. unfold ServeHTTP. rewrite HM.
  change (negb (String.eqb "HEAD" "GET") && negb (String.eqb "HEAD" "HEAD")) with false.
  cbv iota. pose proof (timestamp_guard_passes r req Hts) as Hg.
  unfold createdUnix in Hg. rewrite Hg.
  change (String.eqb "HEAD" "HEAD") with true. cbv iota.
  by destruct (acceptsJSON req).
Qed.

(** What a GET that is answered without an error status went through. *)
Lemma ServeHTTP_GET_inv r req w :
  Method req = "GET" ->
  ServeHTTP r newRecorder req = Returns w ->
  status w < 400 ->
  timestampOK r req /\
  exists offset limit page,
    extractParam req "offset" 0 = (offset, None) /\
    extractParam req "limit" defaultRouteListingLimit = (limit, None) /\
    slice (validRoutes (Load r)) offset limit = Returns page /\
    if acceptsJSON req then
      exists b, json_Marshal page = Some b /\
        w = Write (listingHeaders r "application/json") (b +:+ newline)
    else
      w = Write (listingHeaders r "text/plain")
            (Fprint (extractPretty req) (elems_of page)).
Proof.
  intros HM Hs Hst. unfold ServeHTTP in Hs. rewrite HM in Hs.
  change (negb (String.eqb "GET" "GET") && negb (String.eqb "GET" "HEAD"))
    with false in Hs.
  cbv iota in Hs.
  destruct (negb (String.eqb (Values_Get (Form req) "timestamp") EmptyString)
            && negb (String.eqb (FormatInt (Unix (created (Load r))))
                       (Values_Get (Form req) "timestamp"))) eqn:Hg.
  { inversion Hs; subst w. rewrite status_http_Error in Hst by done.
    unfold StatusBadRequest in Hst. lia. }
  split; [by apply timestamp_guard_fails|].
  change (String.eqb "GET" "HEAD") with false in Hs. cbv iota in Hs.
  destruct (extractParam req "offset" 0) as [offset [e|]].
  { inversion Hs; subst w. rewrite status_http_Error in Hst by done.
    unfold StatusBadRequest in Hst. lia. }
  destruct (extractParam req "limit" defaultRouteListingLimit) as [limit [e|]].
  { inversion Hs; subst w. rewrite status_http_Error in Hst by done.
    unfold StatusBadRequest in Hst. lia. }
  destruct (slice (validRoutes (Load r)) offset limit) as [page|] eqn:Hp;
    [|discriminate].
  exists offset, limit, page. do 2 (split; [reflexivity|]). split; [exact Hp|].
  destruct (acceptsJSON req).
  - unfold Encode in Hs. destruct (json_Marshal page) as [b|].
    + exists b. split; [reflexivity|]. by inversion Hs.
    + inversion Hs; subst w. rewrite status_http_Error in Hst by done.
      unfold StatusInternalServerError in Hst. lia.
  - by inversion Hs.
Qed.

End handler_facts.

(** ** Query parameters *)

Lemma Atoi_range (s : string) (v : Z) : Atoi s = Some v -> minInt <= v <= maxInt.
Proof.
  unfold Atoi. destruct s as [|c s']; [discriminate|].
  destruct (if Ascii.eqb c "-" || Ascii.eqb c "+" then s' else String c s');
    [discriminate|].
  destruct (parse_digits _ _) as [n|]; [|discriminate].
  destruct (_ && _) eqn:Hr; [|discriminate].
  intros [= <-]. apply andb_true_iff in Hr as [H1 H2].
  apply Z.leb_le in H1, H2. lia.
Qed.

Lemma extractParam_default (req : Request) (key : string) (d : Z) :
  Values_Get (Form req) key = EmptyString -> extractParam req key d = (d, None).
Proof. intros H. unfold extractParam. by rewrite H. Qed.

Lemma extractParam_bad (req : Request) (key : string) (d : Z) :
  badParam req key -> exists e, extractParam req key d = (0, Some e).
Proof.
  intros [Hne Hbad]. unfold extractParam.
  apply String.eqb_neq in Hne. rewrite Hne.
  destruct Hbad as [-> | (v & -> & Hv)]; [by eexists|].
  apply Z.ltb_lt in Hv. rewrite Hv. by eexists.
Qed.

Lemma extractParam_ok (req : Request) (key : string) (d v : Z) :
  0 <= d <= maxInt -> extractParam req key d = (v, None) -> 0 <= v <= maxInt.
Proof.
  intros Hd. unfold extractParam.
  destruct (String.eqb _ _); [intros [= <-]; lia|].
  destruct (Atoi _) as [val|] eqn:Ha; [|discriminate].
  destruct (Z.ltb_spec val 0); [discriminate|].
  intros [= <-]. apply Atoi_range in Ha. lia.
Qed.

Lemma extractParam_same_value (req req' : Request) (key : string) (d : Z) :
  Values_Get (Form req) key = Values_Get (Form req') key ->
  extractParam req key d = extractParam req' key d.
Proof. intros H. unfold extractParam. by rewrite H. Qed.

Lemma Values_Get_delete_ne (v : gmap string (list string)) (k k' : string) :
  k <> k' -> Values_Get (delete k v) k' = Values_Get v k'.
Proof. intros H. unfold Values_Get. by rewrite lookup_delete_ne. Qed.

Lemma Values_Get_delete_eq (v : gmap string (list string)) (k : string) :
  Values_Get (delete k v) k = EmptyString.
Proof. unfold Values_Get. by rewrite lookup_delete_eq. Qed.

Lemma Values_Get_insert_ne (v : gmap string (list string)) (k k' x : string) :
  k <> k' -> Values_Get (<[k := [x]]> v) k' = Values_Get v k'.
Proof. intros H. unfold Values_Get. by rewrite lookup_insert_ne. Qed.

Lemma Values_Get_insert_eq (v : gmap string (list string)) (k x : string) :
  Values_Get (<[k := [x]]> v) k = x.
Proof. unfold Values_Get. by rewrite lookup_insert_eq. Qed.

Section handler_ext.
Context {eskip_Route : Type} `{!Eskip eskip_Route} {matcher : Type}.
Implicit Types (r : Routing eskip_Route matcher) (req : Request)
  (w : ResponseWriter).

(** The handler reads the method, the [Accept] header and the four form
    fields [timestamp], [offset], [limit] and [nopretty], and nothing
    else of the request. *)
Lemma ServeHTTP_ext r w req req' :
  Method req = Method req' ->
  ReqHeader req = ReqHeader req' ->
  Values_Get (Form req) "timestamp" = Values_Get (Form req') "timestamp" ->
  Values_Get (Form req) "offset" = Values_Get (Form req') "offset" ->
  Values_Get (Form req) "limit" = Values_Get (Form req') "limit" ->
  Form req !! "nopretty" = Form req' !! "nopretty" ->
  ServeHTTP r w req = ServeHTTP r w req'.
Proof.
  intros HM HH Hts Ho Hl Hp. unfold ServeHTTP, acceptsJSON, extractPretty.
  rewrite (extractParam_same_value req req' "offset" 0 Ho).
  rewrite (extractParam_same_value req req' "limit" _ Hl).
  by rewrite HM, HH, Hts, Hp.
Qed.

(** Within the range of [int], a GET that passes the checks is answered
    with the page [limit] routes long from [offset] on, rendered as the
    [Accept] header asks. *)
Lemma ServeHTTP_GET_page r req offset limit :
  Method req = "GET" -> timestampOK r req ->
  extractParam req "offset" 0 = (offset, None) ->
  extractParam req "limit" defaultRouteListingLimit = (limit, None) ->
  Z.min offset (len (validRoutes (Load r))) + limit <= maxInt ->
  exists w page,
    ServeHTTP r newRecorder req = Returns w /\
    slice (validRoutes (Load r)) offset limit = Returns page /\
    len page = Z.min limit (len (validRoutes (Load r))
                            - Z.min offset (len (validRoutes (Load r)))) /\
    (acceptsJSON req = false \/ is_Some (json_Marshal page) -> status w = 200).
Proof.
  intros HM Hts Ho Hl Hsum.
  assert (0 <= offset <= maxInt) as Hor
    by (eapply extractParam_ok; [|exact Ho]; unfold maxInt; lia).
  assert (0 <= limit <= maxInt) as Hlr
    by (eapply extractParam_ok; [|exact Hl];
        unfold maxInt, defaultRouteListingLimit; lia).
  destruct (slice_length (validRoutes (Load r)) offset limit) as (page & Hp & Hlen);
    [lia..|].
  unfold ServeHTTP. rewrite HM.
  change (negb (String.eqb "GET" "GET") && negb (String.eqb "GET" "HEAD")) with false.
  cbv iota. pose proof (timestamp_guard_passes r req Hts) as Hg.
  unfold createdUnix in Hg. rewrite Hg.
  change (String.eqb "GET" "HEAD") with false. cbv iota.
  rewrite Ho, Hl, Hp.
  destruct (acceptsJSON req).
  - unfold Encode. destruct (json_Marshal page) as [b|] eqn:Hm; eexists _, page;
      (do 3 (split; [done|])).
    + done.
    + intros [Hacc|[b Hb]]; [done|]. rewrite Hm in Hb. done.
  - eexists _, page. by repeat split.
Qed.

Lemma ServeHTTP_ok_timestamp r req w :
  Method req = "GET" \/ Method req = "HEAD" ->
  ServeHTTP r newRecorder req = Returns w -> status w < 400 ->
  timestampOK r req.
Proof.
  intros HM Hs Hst. unfold timestampOK.
  destruct (String.eqb_spec (Values_Get (Form req) "timestamp") EmptyString) as [|Hne];
    [by left|].
  destruct (String.eqb_spec (Values_Get (Form req) "timestamp") (createdUnix r)) as [|Hd];
    [by right|].
  rewrite ServeHTTP_bad_timestamp in Hs by done.
  inversion Hs; subst w. rewrite status_http_Error in Hst by done.
  unfold StatusBadRequest in Hst. lia.
Qed.

(** The response of a GET that is answered without an error status. *)
Lemma ServeHTTP_GET_ok r req w :
  Method req = "GET" ->
  ServeHTTP r newRecorder req = Returns w -> status w < 400 ->
  if acceptsJSON req then
    exists parts,
      mapM MarshalJSON (pageOf r req) = Some parts /\
      w = Write (listingHeaders r "application/json")
            (("[" +:+ String.concat "," parts +:+ "]") +:+ newline)
  else
    w = Write (listingHeaders r "text/plain")
          (Fprint (extractPretty req) (pageOf r req)).
Proof.
  intros HM Hs Hst.
  destruct (ServeHTTP_GET_inv r req w HM Hs Hst)
    as (_ & offset & limit & page & Ho & Hl & Hp & Hw).
  assert (0 <= offset <= maxInt) as Hor
    by (eapply extractParam_ok; [|exact Ho]; unfold maxInt; lia).
  assert (0 <= limit <= maxInt) as Hlr
    by (eapply extractParam_ok; [|exact Hl];
        unfold maxInt, defaultRouteListingLimit; lia).
  apply slice_returns in Hp; [|done..].
  unfold pageOf. rewrite Ho, Hl. simpl fst. simpl snd. subst page.
  destruct (acceptsJSON req); [|exact Hw].
  destruct Hw as (b & Hb & ->). simpl in Hb.
  destruct (mapM MarshalJSON _) as [parts|]; [|discriminate].
  exists parts. split; [reflexivity|]. simpl in Hb.
  by injection Hb as <-.
Qed.

(** The response to a GET that passes the checks, with the sum of the
    clamped offset and the limit within [int]. *)
Lemma ServeHTTP_GET_served r req offset limit :
  Method req = "GET" -> timestampOK r req ->
  extractParam req "offset" 0 = (offset, None) ->
  extractParam req "limit" defaultRouteListingLimit = (limit, None) ->
  Z.min offset (len (validRoutes (Load r))) + limit <= maxInt ->
  ServeHTTP r newRecorder req =
    if acceptsJSON req then
      match mapM MarshalJSON (pageOf r req) with
      | Some parts =>
          Returns (Write (listingHeaders r "application/json")
                     (("[" +:+ String.concat "," parts +:+ "]") +:+ newline))
      | None =>
          Returns (http_Error (listingHeaders r "application/json")
                     StatusText500 StatusInternalServerError)
      end
    else
      Returns (Write (listingHeaders r "text/plain")
                 (Fprint (extractPretty req) (pageOf r req))).
Proof.
  intros HM Hts Ho Hl Hsum.
  assert (0 <= offset <= maxInt) as Hor
    by (eapply extractParam_ok; [|exact Ho]; unfold maxInt; lia).
  assert (0 <= limit <= maxInt) as Hlr
    by (eapply extractParam_ok; [|exact Hl];
        unfold maxInt, defaultRouteListingLimit; lia).
  unfold pageOf. rewrite Ho, Hl. cbn [fst].
  unfold ServeHTTP. rewrite HM.
  change (negb (String.eqb "GET" "GET") && negb (String.eqb "GET" "HEAD")) with false.
  cbv iota. pose proof (timestamp_guard_passes r req Hts) as Hg.
  unfold createdUnix in Hg. rewrite Hg.
  change (String.eqb "GET" "HEAD") with false. cbv iota.
  rewrite Ho, Hl, slice_in_range by lia.
  destruct (acceptsJSON req); [|reflexivity].
  unfold Encode, json_Marshal.
  destruct (mapM MarshalJSON _) as [parts|]; reflexivity.
Qed.

Lemma listingHeaders_lookup r ct :
  Header (listingHeaders r ct) !! routesTimestampName = Some [createdUnix r] /\
  Header (listingHeaders r ct) !! routesCountName = Some [routesCount r] /\
  Header (listingHeaders r ct) !! "Content-Type" = Some [ct].
Proof.
  unfold listingHeaders, Header_Set, routesTimestampName, routesCountName.
  split; [|split]; reflexivity.
Qed.

End handler_ext.

(** ** The introspection endpoint *)

Section endpoint.
Context {eskip_Route : Type} `{!Eskip eskip_Route} {matcher : Type}.
Implicit Types (r : Routing eskip_Route matcher) (req : Request)
  (w : ResponseWriter).

(** C1 (as amended). A GET that passes the timestamp check, with an
    accepted offset and limit whose sum stays within [int] once the
    offset is clamped, and whose page can be encoded when JSON is asked
    for, is answered with status 200 and the requested page of the valid
    routes in its body, as JSON or as text; and a GET is answered without
    an error status in no other way. A HEAD that passes the timestamp
    check is answered with the three listing headers, status 200 and an
    empty body; every other method is answered with status 405, no header
    and no body. *)
Theorem C1_methods r req :
  (Method req = "GET" -> timestampOK r req ->
   forall offset limit,
     extractParam req "offset" 0 = (offset, None) ->
     extractParam req "limit" defaultRouteListingLimit = (limit, None) ->
     Z.min offset (len (validRoutes (Load r))) + limit <= maxInt ->
     (acceptsJSON req = true -> is_Some (mapM MarshalJSON (pageOf r req))) ->
     exists w,
       ServeHTTP r newRecorder req = Returns w /\ status w = 200 /\
       if acceptsJSON req then
         Some (body w) =
           (fun b => b +:+ newline) <$> json_Marshal (Slice (pageOf r req))
       else body w = Fprint (extractPretty req) (pageOf r req)) /\
  (Method req = "GET" ->
   forall w, ServeHTTP r newRecorder req = Returns w -> status w < 400 ->
     if acceptsJSON req then
       Some (body w) =
         (fun b => b +:+ newline) <$> json_Marshal (Slice (pageOf r req))
     else body w = Fprint (extractPretty req) (pageOf r req)) /\
  (Method req = "HEAD" -> timestampOK r req ->
   exists w, ServeHTTP r newRecorder req = Returns w /\
     body w = EmptyString /\ status w = 200 /\
     dom (Header w) =
       ({[ routesTimestampName; routesCountName; "Content-Type" ]} : gset string)) /\
  (Method req <> "GET" -> Method req <> "HEAD" ->
   ServeHTTP r newRecorder req =
     Returns {| Header := ∅; code := Some 405; body := EmptyString |}).
Proof.
  split; [|split; [|split]].
  - intros HM Hts offset limit Ho Hl Hsum Henc.
    rewrite (ServeHTTP_GET_served r req offset limit) by done.
    destruct (acceptsJSON req).
    + destruct Henc as [parts Hparts]; [done|]. rewrite Hparts.
      eexists. split; [reflexivity|]. split; [reflexivity|].
      simpl. by rewrite Hparts.
    + eexists. by repeat split.
  - intros HM w Hs Hst. pose proof (ServeHTTP_GET_ok r req w HM Hs Hst) as Hw.
    destruct (acceptsJSON req).
    + destruct Hw as (parts & Hparts & ->). simpl. by rewrite Hparts.
    + by subst w.
  - intros HM Hts. eexists. split; [by apply ServeHTTP_HEAD|].
    split; [reflexivity|]. split; [reflexivity|].
    unfold listingHeaders, Header_Set. simpl.
    rewrite !dom_insert_L, dom_empty_L. set_solver.
  - intros HG HH. by rewrite ServeHTTP_other_method.
Qed.

(** C3. A GET or HEAD that is not rejected with an error status carries
    [X-Timestamp], the creation instant of the current generation as a
    Unix second, and [X-Count], the number of its valid routes. *)
Theorem C3_headers r req w :
  Method req = "GET" \/ Method req = "HEAD" ->
  ServeHTTP r newRecorder req = Returns w ->
  status w < 400 ->
  Header w !! "X-Timestamp" = Some [FormatInt (Unix (created (Load r)))] /\
  Header w !! "X-Count" = Some [Itoa (len (validRoutes (Load r)))].
Proof.
  intros HM Hs Hst.
  destruct HM as [HM|HM].
  - pose proof (ServeHTTP_GET_ok r req w HM Hs Hst) as Hw.
    destruct (acceptsJSON req).
    + destruct Hw as (parts & _ & ->).
      destruct (listingHeaders_lookup r "application/json") as (H1 & H2 & _).
      by split.
    + subst w.
      destruct (listingHeaders_lookup r "text/plain") as (H1 & H2 & _).
      by split.
  - assert (timestampOK r req) as Hts
      by (eapply ServeHTTP_ok_timestamp; eauto).
    rewrite ServeHTTP_HEAD in Hs by done. inversion Hs; subst w.
    destruct (listingHeaders_lookup r
                (if acceptsJSON req then "application/json" else "text/plain"))
      as (H1 & H2 & _).
    by split.
Qed.

(** Past the timestamp check the only rejections left are those of a GET
    for its offset or its limit. *)
Lemma ServeHTTP_past_timestamp_check r req w :
  Method req = "GET" \/ Method req = "HEAD" ->
  timestampOK r req ->
  ServeHTTP r newRecorder req = Returns w ->
  status w = 400 ->
  Method req = "GET" /\
  ((extractParam req "offset" 0).2 <> None /\
   body w = "invalid offset" +:+ newline \/
   (extractParam req "limit" defaultRouteListingLimit).2 <> None /\
   body w = "invalid limit" +:+ newline).
Proof.
  intros HM Hts Hs Hst. destruct HM as [HM|HM].
  - split; [done|]. unfold ServeHTTP in Hs. rewrite HM in Hs.
    change (negb (String.eqb "GET" "GET") && negb (String.eqb "GET" "HEAD"))
      with false in Hs.
    cbv iota in Hs. pose proof (timestamp_guard_passes r req Hts) as Hg.
    unfold createdUnix in Hg. rewrite Hg in Hs.
    change (String.eqb "GET" "HEAD") with false in Hs. cbv iota in Hs.
    destruct (extractParam req "offset" 0) as [offset [e|]].
    { left. inversion Hs; subst w. by split. }
    destruct (extractParam req "limit" defaultRouteListingLimit) as [limit [e|]].
    { right. inversion Hs; subst w. by split. }
    exfalso. destruct (slice _ _ _) as [page|]; [|discriminate].
    destruct (acceptsJSON req).
    + unfold Encode in Hs. destruct (json_Marshal page);
        inversion Hs; subst w; discriminate.
    + inversion Hs; subst w. discriminate.
  - exfalso. rewrite ServeHTTP_HEAD in Hs by done.
    inversion Hs; subst w. by destruct (acceptsJSON req).
Qed.

(** C4. On a GET or HEAD whose [timestamp] parameter is not empty: a
    value other than the Unix second of the current generation is
    answered with status 400. The value of the current generation lets
    the request through: it is answered as the same request without the
    parameter is; a HEAD gets the listing headers and status 200; a GET
    with an accepted offset and limit gets status 200 and the page; and
    the only rejections left are those of a GET for its offset or its
    limit. *)
Theorem C4_timestamp r req :
  Method req = "GET" \/ Method req = "HEAD" ->
  Values_Get (Form req) "timestamp" <> EmptyString ->
  (Values_Get (Form req) "timestamp" <> FormatInt (Unix (created (Load r))) ->
   exists w, ServeHTTP r newRecorder req = Returns w /\ status w = 400) /\
  (Values_Get (Form req) "timestamp" = FormatInt (Unix (created (Load r))) ->
   ServeHTTP r newRecorder req =
     ServeHTTP r newRecorder (without_param req "timestamp") /\
   (Method req = "HEAD" ->
    exists w, ServeHTTP r newRecorder req = Returns w /\ status w = 200 /\
      body w = EmptyString /\
      Header w !! "X-Timestamp" = Some [Values_Get (Form req) "timestamp"]) /\
   (Method req = "GET" ->
    forall offset limit,
      extractParam req "offset" 0 = (offset, None) ->
      extractParam req "limit" defaultRouteListingLimit = (limit, None) ->
      Z.min offset (len (validRoutes (Load r))) + limit <= maxInt ->
      (acceptsJSON req = true -> is_Some (mapM MarshalJSON (pageOf r req))) ->
      exists w, ServeHTTP r newRecorder req = Returns w /\ status w = 200 /\
        Header w !! "X-Timestamp" = Some [Values_Get (Form req) "timestamp"] /\
        if acceptsJSON req then
          Some (body w) =
            (fun b => b +:+ newline) <$> json_Marshal (Slice (pageOf r req))
        else body w = Fprint (extractPretty req) (pageOf r req)) /\
   (forall w, ServeHTTP r newRecorder req = Returns w -> status w = 400 ->
      Method req = "GET" /\
      ((extractParam req "offset" 0).2 <> None /\
       body w = "invalid offset" +:+ newline \/
       (extractParam req "limit" defaultRouteListingLimit).2 <> None /\
       body w = "invalid limit" +:+ newline))).
Proof.
  intros HM Hne. split.
  - intros Hd. eexists. split; [by apply ServeHTTP_bad_timestamp|].
    by apply status_http_Error.
  - intros Heq. assert (timestampOK r req) as Hts by (by right).
    split; [|split; [|split]].
    + unfold ServeHTTP at 1 2.
      rewrite !(extractParam_same_value (without_param req "timestamp") req)
        by (by apply Values_Get_delete_ne).
      unfold acceptsJSON, extractPretty, without_param. simpl.
      rewrite Values_Get_delete_eq, lookup_delete_ne by done.
      rewrite Heq, String.eqb_refl.
      change (String.eqb EmptyString EmptyString) with true.
      by rewrite andb_false_r.
    + intros HH. rewrite ServeHTTP_HEAD by done. eexists.
      split; [reflexivity|]. split; [reflexivity|]. split; [reflexivity|].
      rewrite Heq. apply (listingHeaders_lookup r).
    + intros HG offset limit Ho Hl Hsum Henc.
      rewrite (ServeHTTP_GET_served r req offset limit) by done. rewrite Heq.
      destruct (acceptsJSON req).
      * destruct Henc as [parts Hparts]; [done|]. rewrite Hparts.
        eexists. split; [reflexivity|]. split; [reflexivity|].
        split; [apply (listingHeaders_lookup r "application/json")|].
        simpl. by rewrite Hparts.
      * eexists. split; [reflexivity|]. split; [reflexivity|].
        split; [apply (listingHeaders_lookup r "text/plain")|reflexivity].
    + intros w Hs Hst. by apply (ServeHTTP_past_timestamp_check r req w).
Qed.

(** C5 (as amended). On a GET, an [offset] or [limit] with a non-empty
    value that is not a non-negative integer is answered with status
    400; an absent or empty [offset] is handled as [offset=0], an absent
    or empty [limit] as [limit=1024]. *)
Theorem C5_pagination_parameters r req :
  Method req = "GET" ->
  (badParam req "offset" \/ badParam req "limit" ->
   exists w, ServeHTTP r newRecorder req = Returns w /\ status w = 400) /\
  (Values_Get (Form req) "offset" = EmptyString ->
   extractParam req "offset" 0 = (0, None) /\
   ServeHTTP r newRecorder req =
     ServeHTTP r newRecorder (with_param req "offset" "0")) /\
  (Values_Get (Form req) "limit" = EmptyString ->
   extractParam req "limit" defaultRouteListingLimit = (1024, None) /\
   ServeHTTP r newRecorder req =
     ServeHTTP r newRecorder (with_param req "limit" "1024")).
Proof.
  intros HM. split; [|split].
  - intros Hbad. unfold ServeHTTP. rewrite HM.
    change (negb (String.eqb "GET" "GET") && negb (String.eqb "GET" "HEAD")) with false.
    change (String.eqb "GET" "HEAD") with false. cbv iota.
    destruct (_ && _).
    { eexists. split; [reflexivity|]. by apply status_http_Error. }
    destruct (extractParam req "offset" 0) as [offset [e|]] eqn:Ho.
    { eexists. split; [reflexivity|]. by apply status_http_Error. }
    destruct (extractParam req "limit" defaultRouteListingLimit) as [limit [e|]] eqn:Hl.
    { eexists. split; [reflexivity|]. by apply status_http_Error. }
    destruct Hbad as [Hb|Hb].
    + destruct (extractParam_bad req "offset" 0 Hb) as [e He]. congruence.
    + destruct (extractParam_bad req "limit" defaultRouteListingLimit Hb) as [e He].
      congruence.
  - intros Hempty. split; [by apply extractParam_default|].
    unfold ServeHTTP at 1 2.
    rewrite (extractParam_same_value (with_param req "offset" "0") req "limit")
      by (by apply Values_Get_insert_ne).
    rewrite (extractParam_default req "offset") by done.
    replace (extractParam (with_param req "offset" "0") "offset" 0) with (0, @None error)
      by (unfold extractParam, with_param; simpl; by rewrite Values_Get_insert_eq).
    unfold acceptsJSON, extractPretty, with_param. simpl.
    by rewrite Values_Get_insert_ne, lookup_insert_ne by done.
  - intros Hempty. split; [by apply extractParam_default|].
    unfold ServeHTTP at 1 2.
    rewrite (extractParam_same_value (with_param req "limit" "1024") req "offset")
      by (by apply Values_Get_insert_ne).
    rewrite (extractParam_default req "limit") by done.
    replace (extractParam (with_param req "limit" "1024") "limit"
               defaultRouteListingLimit)
      with (defaultRouteListingLimit, @None error)
      by (unfold extractParam, with_param; simpl; by rewrite Values_Get_insert_eq).
    unfold acceptsJSON, extractPretty, with_param. simpl.
    by rewrite Values_Get_insert_ne, lookup_insert_ne by done.
Qed.

End endpoint.

Section rendering.
Context {eskip_Route : Type} `{!Eskip eskip_Route} {matcher : Type}.
Implicit Types (r : Routing eskip_Route matcher) (req : Request)
  (w : ResponseWriter).

(** C6 (as amended). On a GET that passes the timestamp check, with an
    accepted offset and limit whose sum stays within [int] once the
    offset is clamped: when the [Accept] header contains
    [application/json] and the routes of the page can be encoded, the
    answer has status 200, the JSON array of the encoded routes followed
    by a newline as its body, and [Content-Type: application/json];
    otherwise, when the header does not contain it, the answer has status
    200, what the route printer writes for the page as its body, and
    [Content-Type: text/plain]. A GET is answered without an error status
    in no other way. *)
Theorem C6_content_negotiation r req :
  Method req = "GET" ->
  (timestampOK r req ->
   forall offset limit,
     extractParam req "offset" 0 = (offset, None) ->
     extractParam req "limit" defaultRouteListingLimit = (limit, None) ->
     Z.min offset (len (validRoutes (Load r))) + limit <= maxInt ->
     if Contains (Values_Get (ReqHeader req) "Accept") "application/json" then
       forall parts,
         mapM MarshalJSON (pageOf r req) = Some parts ->
         exists w,
           ServeHTTP r newRecorder req = Returns w /\ status w = 200 /\
           body w = ("[" +:+ String.concat "," parts +:+ "]") +:+ newline /\
           Header w !! "Content-Type" = Some ["application/json"]
     else
       exists w,
         ServeHTTP r newRecorder req = Returns w /\ status w = 200 /\
         body w = Fprint (extractPretty req) (pageOf r req) /\
         Header w !! "Content-Type" = Some ["text/plain"]) /\
  (forall w,
     ServeHTTP r newRecorder req = Returns w -> status w < 400 ->
     if Contains (Values_Get (ReqHeader req) "Accept") "application/json" then
       (exists parts,
          mapM MarshalJSON (pageOf r req) = Some parts /\
          body w = ("[" +:+ String.concat "," parts +:+ "]") +:+ newline) /\
       Header w !! "Content-Type" = Some ["application/json"]
     else
       body w = Fprint (extractPretty req) (pageOf r req) /\
       Header w !! "Content-Type" = Some ["text/plain"]).
Proof.
  intros HM. split.
  - intros Hts offset limit Ho Hl Hsum.
    rewrite (ServeHTTP_GET_served r req offset limit) by done.
    unfold acceptsJSON. destruct (Contains _ _).
    + intros parts ->. eexists. split; [reflexivity|].
      split; [reflexivity|]. split; [reflexivity|].
      apply (listingHeaders_lookup r "application/json").
    + eexists. split; [reflexivity|]. split; [reflexivity|].
      split; [reflexivity|]. apply (listingHeaders_lookup r "text/plain").
  - intros w Hs Hst. pose proof (ServeHTTP_GET_ok r req w HM Hs Hst) as Hw.
    unfold acceptsJSON in Hw.
    destruct (Contains _ _).
    + destruct Hw as (parts & Hparts & ->). split; [by exists parts|].
      apply (listingHeaders_lookup r "application/json").
    + subst w. split; [reflexivity|].
      apply (listingHeaders_lookup r "text/plain").
Qed.

(** C7. On a GET whose textual output is produced: without a [nopretty]
    parameter the page is printed pretty, with an indentation of two
    spaces; with a [nopretty] whose first value is neither [0] nor
    [false] it is printed with [Pretty] off and no indentation. *)
Theorem C7_nopretty r req w :
  Method req = "GET" ->
  ServeHTTP r newRecorder req = Returns w ->
  status w < 400 ->
  Contains (Values_Get (ReqHeader req) "Accept") "application/json" = false ->
  (Form req !! "nopretty" = None ->
   extractPretty req = {| Pretty := true; IndentStr := "  " |} /\
   body w = Fprint {| Pretty := true; IndentStr := "  " |} (pageOf r req)) /\
  (forall val rest,
     Form req !! "nopretty" = Some (val :: rest) ->
     val <> "0" -> val <> "false" ->
     extractPretty req = {| Pretty := false; IndentStr := EmptyString |} /\
     body w = Fprint {| Pretty := false; IndentStr := EmptyString |} (pageOf r req)).
Proof.
  intros HM Hs Hst Hacc. pose proof (ServeHTTP_GET_ok r req w HM Hs Hst) as Hw.
  unfold acceptsJSON in Hw. rewrite Hacc in Hw. subst w. simpl.
  split.
  - intros Hnone. unfold extractPretty. by rewrite Hnone.
  - intros val rest Hsome H0 Hf. unfold extractPretty. rewrite Hsome.
    apply String.eqb_neq in H0, Hf. by rewrite H0, Hf.
Qed.


End rendering.

(** ** Pinned lookups *)

Section pinned.
Context {eskip_Route matcher Route httpRequest : Type}.
Context `{!Matching matcher Route httpRequest}.
Implicit Types (st : state eskip_Route matcher) (rl : RouteLookup address)
  (es : list (event eskip_Route matcher httpRequest)) (p : address).

(** A publication leaves every matcher that is in memory where it is. *)
Lemma publish_keeps_matchers st mo now routes p mo0 :
  mem st !! p = Some mo0 ->
  mem (publish st mo now routes) !! p = Some mo0.
Proof.
  intros Hp. unfold publish. cbn [mem].
  rewrite lookup_insert_ne; [exact Hp|].
  intros Heq. apply (is_fresh (dom (mem st))).
  rewrite Heq. by apply elem_of_dom_2 with mo0.
Qed.

(** A publication moves the cell to the matcher it brings. *)
Lemma publish_moves_the_cell st mo now routes :
  mem (publish st mo now routes) !! m (Load (routing (publish st mo now routes)))
    = Some mo.
Proof. unfold publish. cbn. by rewrite lookup_insert_eq. Qed.

(** Whatever is published, a handle keeps answering from the matcher its
    pointer led to when the handle was made. *)
Lemma observe_pinned st rl es mo0 :
  mem st !! rl_matcher rl = Some mo0 ->
  Forall (fun o => obs_pinned o = Returns (matcher_match mo0 (obs_req o)))
    (observe st rl es).
Proof.
  revert st. induction es as [|[mo now routes|req] es IH]; intros st Hp; simpl.
  - constructor.
  - apply IH. by apply publish_keeps_matchers.
  - constructor; [|by apply IH].
    cbn [obs_pinned obs_req]. unfold Do, match_at. by rewrite Hp.
Qed.

(** A lookup through the cell right after a publication answers from the
    matcher published. *)
Lemma observe_latest_after_publish st rl mo now routes req es :
  exists o os,
    observe st rl (Publish mo now routes :: Lookup req :: es) = o :: os /\
    obs_latest o = Returns (matcher_match mo req).
Proof.
  cbn [observe]. eexists _, _. split; [reflexivity|].
  cbn [obs_latest]. unfold Routing_Route, match_at. cbv zeta.
  by rewrite publish_moves_the_cell.
Qed.

(** C8. Every [Do] on a handle obtained by [Get] returns what the
    [match] of the matcher of the generation current at the moment of
    [Get] returns, whatever generations are published in between; two
    [Do] on the same handle with the same request return the same route
    and captures. *)
Theorem C8_pinned_handle st mo0 es :
  mem st !! m (Load (routing st)) = Some mo0 ->
  Forall (fun o => obs_pinned o = Returns (matcher_match mo0 (obs_req o)))
    (observe st (Get (routing st)) es) /\
  (forall o1 o2,
     o1 ∈ observe st (Get (routing st)) es ->
     o2 ∈ observe st (Get (routing st)) es ->
     obs_req o1 = obs_req o2 -> obs_pinned o1 = obs_pinned o2).
Proof.
  intros Hp.
  pose proof (observe_pinned st (Get (routing st)) es mo0 Hp) as HF.
  split; [exact HF|].
  rewrite Forall_forall in HF.
  intros o1 o2 H1 H2 Hreq.
  rewrite (HF o1 H1), (HF o2 H2). by rewrite Hreq.
Qed.

End pinned.

(** ** Multi-type plugins *)

Section plugin_facts.
Context {Spec PredicateSpec DataClient Plugin : Type}.

(** C10. [LoadMultiPlugin] returns a nil error, or a non-nil error with
    the filter spec, the predicate spec and the data client all nil. *)
Theorem C10_LoadMultiPlugin_all_or_nothing
    (host : PluginHost (Spec := Spec) (PredicateSpec := PredicateSpec)
              (DataClient := DataClient) (Plugin := Plugin))
    (path : string) (args : list string) :
  let '(fltr, pred, dc, err) := LoadMultiPlugin host path args in
  err = None \/
  (err <> None /\ fltr = None /\ pred = None /\ dc = None).
Proof.
  unfold LoadMultiPlugin.
  destruct (plugin_Open host path) as [mod_|e]; [|by right].
  destruct (Plugin_Lookup host mod_ "InitPlugin") as [sym|e]; [|by right].
  destruct sym as [fn| | | |]; try by right.
  destruct (fn args) as [[[fltr pred] dc] [e|]]; [by right|by left].
Qed.

(** What the plugin's own function returns next to an error is
    dropped. *)
Lemma LoadMultiPlugin_drops_partial_result
    (host : PluginHost (Spec := Spec) (PredicateSpec := PredicateSpec)
              (DataClient := DataClient) (Plugin := Plugin))
    (path : string) (args : list string) mod_ fn fltr pred dc e :
  plugin_Open host path = inl mod_ ->
  Plugin_Lookup host mod_ "InitPlugin" = inl (InitPluginFunc fn) ->
  fn args = (fltr, pred, dc, Some e) ->
  LoadMultiPlugin host path args =
    (None, None, None,
     Some (Errorf ("plugin " +:+ path +:+ " returned: " +:+ Error_string e))).
Proof. intros Ho Hl Hf. unfold LoadMultiPlugin. by rewrite Ho, Hl, Hf. Qed.

End plugin_facts.

(** ** The definitions at work *)

Local Ltac run := vm_compute; reflexivity.

Example Atoi_decimal : Atoi "42" = Some 42.
Proof. reflexivity. Qed.

Example Atoi_signs : Atoi "-7" = Some (-7) /\ Atoi "+7" = Some 7 /\ Atoi "+" = None.
Proof. by repeat split. Qed.

Example Atoi_syntax : Atoi "1x" = None /\ Atoi " 1" = None /\ Atoi "1_000" = None.
Proof. by repeat split. Qed.

Example Atoi_limits :
  Atoi "9223372036854775807" = Some maxInt /\ Atoi "9223372036854775808" = None.
Proof. by split. Qed.

Example FormatInt_decimal :
  FormatInt 1500000000 = "1500000000" /\ FormatInt 0 = "0" /\ FormatInt (-3) = "-3".
Proof. by repeat split. Qed.

Example Contains_accept :
  Contains "text/html, application/json;q=0.9" "application/json" = true /\
  Contains "text/plain" "application/json" = false.
Proof. by split. Qed.

(** Ten routes: [?offset=8&limit=5] lists two of them, and
    [?offset=100&limit=5] none, with status 200. *)
Example pagination_scenario :
  (exists w,
     serve routing10 (request "GET" [("offset", "8"); ("limit", "5")] "application/json")
       = Returns w /\
     status w = 200 /\ body w = "[{r9},{r10}]" +:+ newline) /\
  (exists w,
     serve routing10 (request "GET" [("offset", "100"); ("limit", "5")] "application/json")
       = Returns w /\
     status w = 200 /\ body w = "[]" +:+ newline).
Proof. split; eexists; (split; [run|]); by split. Qed.

(** The generation [New] starts with lists as the empty array. *)
Example initial_table_lists_empty_array :
  exists w,
    serve routing0 (request "GET" [] "application/json") = Returns w /\
    status w = 200 /\ body w = "[]" +:+ newline.
Proof. eexists. split; [run|]. by split. Qed.

(** C2 (the failing input). With ten routes, [?offset=1] and the largest
    [limit] that [Atoi] accepts, the sum [offset + limit] wraps to a
    negative bound, nothing is clamped and the handler panics in the slice
    expression: the page of nine routes is not returned. *)
Theorem C2_limit_overflow_panics :
  extractParam get_huge_limit "offset" 0 = (1, None) /\
  extractParam get_huge_limit "limit" defaultRouteListingLimit = (maxInt, None) /\
  int_add 1 maxInt = minInt /\
  slice (validRoutes table10) 1 maxInt = Panics /\
  serve routing10 get_huge_limit = Panics.
Proof. repeat split; run. Qed.

(** C1, as stated, fails on a GET with a stale timestamp: the answer is
    status 400 and its body is the error message, not the routes. *)
Lemma C1_counterexample :
  Method get_stale = "GET" /\
  exists w,
    serve routing10 get_stale = Returns w /\
    status w = 400 /\
    body w = "invalid timestamp" +:+ newline /\
    body w <> Fprint (extractPretty get_stale) (pageOf routing10 get_stale).
Proof.
  split; [reflexivity|]. eexists. split; [run|].
  split; [reflexivity|]. split; [reflexivity|]. vm_compute. by intros [=].
Qed.

(** C5, as stated, fails on a HEAD: [offset=abc] is not an integer, and
    the answer is status 200. *)
Lemma C5_counterexample :
  badParam head_bad_offset "offset" /\
  exists w, serve routing10 head_bad_offset = Returns w /\ status w = 200.
Proof.
  split.
  - split; [vm_compute; by intros [=]|]. left. run.
  - eexists. split; [run|]. reflexivity.
Qed.

(** C6, as stated, fails on a GET that asks for JSON with a stale
    timestamp: the body is the error message and the content type is the
    one of [http.Error]. *)
Lemma C6_counterexample :
  Method get_stale_json = "GET" /\
  Contains (Values_Get (ReqHeader get_stale_json) "Accept") "application/json" = true /\
  exists w,
    serve routing10 get_stale_json = Returns w /\
    status w = 400 /\
    body w = "invalid timestamp" +:+ newline /\
    Header w !! "Content-Type" = Some ["text/plain; charset=utf-8"].
Proof.
  split; [reflexivity|]. split; [run|].
  eexists. split; [run|]. by repeat split.
Qed.

(** ** The theorems at concrete requests *)

Lemma C1_methods_witness :
  (exists w,
     serve routing10 get_page = Returns w /\ status w = 200 /\
     body w = "  r9;" +:+ newline +:+ "  r10;" +:+ newline) /\
  (exists w,
     serve routing10 get_page_json = Returns w /\ status w = 200 /\
     Some (body w) = Some ("[{r9},{r10}]" +:+ newline)) /\
  (exists w,
     serve routing10 head_plain = Returns w /\
     body w = EmptyString /\ status w = 200 /\
     dom (Header w) =
       ({[ routesTimestampName; routesCountName; "Content-Type" ]} : gset string)) /\
  serve routing10 post_plain =
    Returns {| Header := ∅; code := Some 405; body := EmptyString |}.
Proof.
  destruct (C1_methods routing10 get_page) as (HG & _ & _ & _).
  destruct (C1_methods routing10 get_page_json) as (HJ & _ & _ & _).
  destruct (C1_methods routing10 head_plain) as (_ & _ & HH & _).
  destruct (C1_methods routing10 post_plain) as (_ & _ & _ & HO).
  split; [|split; [|split]].
  - destruct (HG eq_refl (or_introl eq_refl) 8 5 eq_refl eq_refl
                ltac:(vm_compute; by intros [=])
                ltac:(intros _; eexists; run))
      as (w & Hs & Hst & Hb).
    exists w. split; [exact Hs|]. split; [exact Hst|].
    vm_compute in Hb. vm_compute. exact Hb.
  - destruct (HJ eq_refl (or_introl eq_refl) 8 5 eq_refl eq_refl
                ltac:(vm_compute; by intros [=])
                ltac:(intros _; eexists; run))
      as (w & Hs & Hst & Hb).
    exists w. split; [exact Hs|]. split; [exact Hst|].
    vm_compute in Hb. vm_compute. exact Hb.
  - apply HH; [reflexivity|]. left. run.
  - apply HO; vm_compute; by intros [=].
Defined.

Lemma C3_headers_witness :
  exists w,
    serve routing10 get_page = Returns w /\ status w < 400 /\
    Header w !! "X-Timestamp" = Some ["1500000000"] /\
    Header w !! "X-Count" = Some ["10"].
Proof.
  pose proof (C3_headers routing10 get_page) as Hthm.
  eexists. split; [run|]. split; [run|].
  match goal with
  | |- Header ?w !! _ = _ /\ _ =>
      pose proof (Hthm w (or_introl eq_refl) ltac:(run) ltac:(run)) as Hh
  end.
  vm_compute in Hh. vm_compute. exact Hh.
Defined.

Lemma C4_timestamp_witness :
  (exists w, serve routing10 get_stale = Returns w /\ status w = 400) /\
  serve routing10 get_current =
    serve routing10 (without_param get_current "timestamp") /\
  (exists w,
     serve routing10 get_current = Returns w /\ status w = 200 /\
     Header w !! "X-Timestamp" = Some ["1500000000"] /\
     body w = "  r1;" +:+ newline +:+ "  r2;" +:+ newline) /\
  (exists w,
     serve routing10 (with_method get_current "HEAD") = Returns w /\
     status w = 200 /\ body w = EmptyString /\
     Header w !! "X-Timestamp" = Some ["1500000000"]).
Proof.
  pose proof (C4_timestamp routing10 get_stale) as Hstale.
  pose proof (C4_timestamp routing10 get_current) as Hget.
  pose proof (C4_timestamp routing10 (with_method get_current "HEAD")) as Hhead.
  destruct (Hstale (or_introl eq_refl) ltac:(vm_compute; by intros [=]))
    as [Hbad _].
  destruct (Hget (or_introl eq_refl) ltac:(vm_compute; by intros [=]))
    as [_ Hsame].
  destruct (Hsame ltac:(run)) as (Heq & _ & HG & _).
  destruct (Hhead (or_intror eq_refl) ltac:(vm_compute; by intros [=]))
    as [_ Hsame'].
  destruct (Hsame' ltac:(run)) as (_ & HH & _ & _).
  split; [|split; [|split]].
  - apply Hbad. vm_compute. by intros [=].
  - exact Heq.
  - destruct (HG eq_refl 0 2 eq_refl eq_refl
                ltac:(vm_compute; by intros [=])
                ltac:(intros _; eexists; run))
      as (w & Hs & Hst & Hh & Hb).
    exists w. split; [exact Hs|]. split; [exact Hst|].
    vm_compute in Hh, Hb. split; [exact Hh|]. vm_compute. exact Hb.
  - destruct (HH eq_refl) as (w & Hs & Hst & Hb & Hh).
    exists w. split; [exact Hs|]. split; [exact Hst|]. split; [exact Hb|].
    vm_compute in Hh. exact Hh.
Defined.

Lemma C5_pagination_parameters_witness :
  (exists w, serve routing10 get_negative_limit = Returns w /\ status w = 400) /\
  serve routing10 get_plain = serve routing10 (with_param get_plain "offset" "0") /\
  serve routing10 get_plain = serve routing10 (with_param get_plain "limit" "1024").
Proof.
  destruct (C5_pagination_parameters routing10 get_negative_limit eq_refl)
    as (Hbad & _ & _).
  destruct (C5_pagination_parameters routing10 get_plain eq_refl)
    as (_ & Hoff & Hlim).
  split; [|split].
  - apply Hbad. right. split; [vm_compute; by intros [=]|].
    right. exists (-3). split; [run|lia].
  - apply Hoff. run.
  - apply Hlim. run.
Defined.

Lemma C6_content_negotiation_witness :
  (exists w,
     serve routing10 get_page_json = Returns w /\ status w = 200 /\
     body w = "[{r9},{r10}]" +:+ newline /\
     Header w !! "Content-Type" = Some ["application/json"]) /\
  (exists w,
     serve routing10 get_page = Returns w /\ status w = 200 /\
     body w = "  r9;" +:+ newline +:+ "  r10;" +:+ newline /\
     Header w !! "Content-Type" = Some ["text/plain"]).
Proof.
  destruct (C6_content_negotiation routing10 get_page_json eq_refl) as [Hjson _].
  destruct (C6_content_negotiation routing10 get_page eq_refl) as [Htext _].
  split.
  - pose proof (Hjson (or_introl eq_refl) 8 5 eq_refl eq_refl
                  ltac:(vm_compute; by intros [=])) as Hc.
    change (Contains (Values_Get (ReqHeader get_page_json) "Accept")
              "application/json") with true in Hc.
    destruct (Hc ["{r9}"; "{r10}"] ltac:(run)) as (w & Hs & Hst & Hb & Hct).
    exists w. split; [exact Hs|]. split; [exact Hst|].
    split; [|exact Hct]. vm_compute in Hb. vm_compute. exact Hb.
  - pose proof (Htext (or_introl eq_refl) 8 5 eq_refl eq_refl
                  ltac:(vm_compute; by intros [=])) as Hc.
    change (Contains (Values_Get (ReqHeader get_page) "Accept")
              "application/json") with false in Hc.
    destruct Hc as (w & Hs & Hst & Hb & Hct).
    exists w. split; [exact Hs|]. split; [exact Hst|].
    split; [|exact Hct]. vm_compute in Hb. vm_compute. exact Hb.
Defined.

Lemma C7_nopretty_witness :
  (exists w,
     serve routing10 get_first_two = Returns w /\ status w < 400 /\
     body w = "  r1;" +:+ newline +:+ "  r2;" +:+ newline) /\
  (exists w,
     serve routing10 get_first_two_flat = Returns w /\ status w < 400 /\
     body w = "r1;" +:+ newline +:+ "r2;" +:+ newline).
Proof.
  pose proof (C7_nopretty routing10 get_first_two) as Hpretty.
  pose proof (C7_nopretty routing10 get_first_two_flat) as Hflat.
  split.
  - eexists. split; [run|]. split; [run|].
    match goal with
    | |- body ?w = _ =>
        destruct (Hpretty w eq_refl ltac:(run) ltac:(run) ltac:(run))
          as [Habsent _]
    end.
    destruct (Habsent ltac:(run)) as [_ Hb].
    vm_compute in Hb. vm_compute. exact Hb.
  - eexists. split; [run|]. split; [run|].
    match goal with
    | |- body ?w = _ =>
        destruct (Hflat w eq_refl ltac:(run) ltac:(run) ltac:(run))
          as [_ Htruthy]
    end.
    destruct (Htruthy "1" [] ltac:(run) ltac:(by intros [=]) ltac:(by intros [=]))
      as [_ Hb].
    vm_compute in Hb. vm_compute. exact Hb.
Defined.


(** A handle taken before a publication keeps answering [r1] for [/a],
    while the cell answers [r9] once the new generation is stored. *)
Lemma C8_pinned_handle_witness :
  mem first_state !! m (Load (routing first_state))
    = Some [("/a", "r1"); ("/b", "r2")] /\
  exists o1 o2,
    observe first_state (Get (routing first_state)) lookup_publish_lookup
      = [o1; o2] /\
    obs_latest o1 = Returns (Some "r1", ∅) /\
    obs_latest o2 = Returns (Some "r9", ∅) /\
    obs_pinned o1 = Returns (Some "r1", ∅) /\
    obs_pinned o2 = Returns (Some "r1", ∅) /\
    obs_pinned o2 = obs_pinned o1.
Proof.
  assert (mem first_state !! m (Load (routing first_state))
            = Some [("/a", "r1"); ("/b", "r2")]) as Hp by run.
  destruct (C8_pinned_handle first_state _ lookup_publish_lookup Hp)
    as [Hall Hsame].
  split; [exact Hp|].
  eexists _, _. split; [reflexivity|].
  split; [run|]. split; [run|].
  rewrite Forall_forall in Hall.
  split; [|split].
  - rewrite (Hall _ (list_elem_of_here _ _)). run.
  - rewrite (Hall _ (list_elem_of_further _ _ _ (list_elem_of_here _ _))). run.
  - apply Hsame.
    + apply list_elem_of_further, list_elem_of_here.
    + apply list_elem_of_here.
    + reflexivity.
Defined.

(** * Further properties of [routing.go] *)

(** ** Matching options *)

Lemma land_IgnoreTrailingSlash (o : Z) :
  Z.land o IgnoreTrailingSlash = if Z.testbit o 1 then 2 else 0.
Proof.
  apply Z.bits_inj'. intros n Hn. rewrite Z.land_spec.
  change IgnoreTrailingSlash with (2 ^ 1). rewrite Z.pow2_bits_eqb by lia.
  destruct (Z.eqb_spec 1 n) as [<-|Hne].
  - rewrite andb_true_r. by destruct (Z.testbit o 1).
  - rewrite andb_false_r.
    destruct (Z.testbit o 1); [|by rewrite Z.bits_0].
    change 2 with (2 ^ 1). by rewrite Z.pow2_bits_false.
Qed.

(** The flag is bit 1 of the options, the value 2: [ignoreTrailingSlash]
    holds exactly when that bit is set, whatever the other bits are, and or-ing
    the constant in sets it. *)
Theorem ignoreTrailingSlash_is_bit_one (o : Z) :
  ignoreTrailingSlash o = Z.testbit o 1 /\
  ignoreTrailingSlash (Z.lor o IgnoreTrailingSlash) = true /\
  ignoreTrailingSlash MatchingOptionsNone = false.
Proof.
  assert (forall x, ignoreTrailingSlash x = Z.testbit x 1) as Hbit.
  { intros x. unfold ignoreTrailingSlash. rewrite land_IgnoreTrailingSlash.
    by destruct (Z.testbit x 1). }
  split; [apply Hbit|]. split; [|reflexivity].
  rewrite Hbit, Z.lor_spec. change IgnoreTrailingSlash with (2 ^ 1).
  rewrite Z.pow2_bits_true by lia. apply orb_true_r.
Qed.

(** ** Pages *)

Section pages.
Context {eskip_Route : Type}.
Implicit Types (r : goslice eskip_Route) (offset limit : Z).

(** Two consecutive pages make up the page of their joint size: nothing is
    listed twice and nothing is skipped between them. *)
Theorem slice_consecutive_pages r offset a b :
  0 <= offset -> 0 <= a -> 0 <= b -> offset + a + b <= maxInt ->
  exists p1 p2 p,
    slice r offset a = Returns p1 /\
    slice r (offset + a) b = Returns p2 /\
    slice r offset (a + b) = Returns p /\
    elems_of p = (elems_of p1 ++ elems_of p2)%list.
Proof.
  intros Ho Ha Hb Hsum. pose proof (len_nonneg r).
  do 3 eexists. rewrite !slice_in_range by lia.
  do 3 (split; [reflexivity|]). simpl.
  rewrite !Z2Nat.inj_add by lia.
  rewrite <- drop_drop. apply eq_sym, take_take_drop.
Qed.

(** The page holds the routes at the positions [offset], [offset + 1], ...
    of the list, at most [limit] of them. *)
Theorem slice_page_positions r offset limit :
  0 <= offset -> 0 <= limit -> Z.min offset (len r) + limit <= maxInt ->
  exists page,
    slice r offset limit = Returns page /\
    forall i : nat,
      elems_of page !! i =
        if decide (i < Z.to_nat limit)%nat
        then elems_of r !! (Z.to_nat offset + i)%nat
        else None.
Proof.
  intros Ho Hl Hsum. eexists. split; [by apply slice_in_range|].
  intros i. simpl. rewrite lookup_take.
  destruct (decide (i < Z.to_nat limit)%nat); [|reflexivity].
  apply lookup_drop.
Qed.

End pages.

(** ** When the handler panics, and the statuses it answers with *)

Section handler_outcomes.
Context {eskip_Route : Type} `{!Eskip eskip_Route} {matcher : Type}.
Implicit Types (r : Routing eskip_Route matcher) (req : Request)
  (w : ResponseWriter).

(** The handler panics on exactly one kind of request: a GET that passes
    the timestamp check with an accepted [offset] and [limit] whose sum,
    once the offset is clamped to the number of routes, is beyond [int]. *)
Theorem ServeHTTP_panics_iff r req :
  ServeHTTP r newRecorder req = Panics <->
  Method req = "GET" /\ timestampOK r req /\
  exists offset limit,
    extractParam req "offset" 0 = (offset, None) /\
    extractParam req "limit" defaultRouteListingLimit = (limit, None) /\
    maxInt < Z.min offset (len (validRoutes (Load r))) + limit.
Proof.
  split.
  - intros Hp. unfold ServeHTTP in Hp.
    destruct (String.eqb_spec (Method req) "GET") as [HG|HG].
    + simpl in Hp. rewrite HG in Hp.
      change (String.eqb "GET" "HEAD") with false in Hp. cbv iota in Hp.
      destruct (negb _ && negb _) eqn:Hg; [discriminate|].
      apply timestamp_guard_fails in Hg.
      destruct (extractParam req "offset" 0) as [offset [e|]] eqn:Ho; [discriminate|].
      destruct (extractParam req "limit" defaultRouteListingLimit)
        as [limit [e|]] eqn:Hl; [discriminate|].
      split; [done|]. split; [done|]. exists offset, limit.
      do 2 (split; [done|]).
      destruct (Z_le_gt_dec (Z.min offset (len (validRoutes (Load r))) + limit) maxInt)
        as [Hle|Hgt]; [|lia].
      apply extractParam_ok in Ho; [|unfold maxInt; lia].
      apply extractParam_ok in Hl; [|unfold maxInt, defaultRouteListingLimit; lia].
      rewrite slice_in_range in Hp by lia.
      destruct (acceptsJSON req); [|discriminate].
      unfold Encode in Hp. destruct (json_Marshal _); discriminate.
    + simpl in Hp. destruct (String.eqb_spec (Method req) "HEAD") as [HH|HH].
      * simpl in Hp. destruct (negb _ && negb _); [discriminate|].
        destruct (acceptsJSON req); discriminate.
      * discriminate.
  - intros (HM & Hts & offset & limit & Ho & Hl & Hsum).
    unfold ServeHTTP. rewrite HM.
    change (negb (String.eqb "GET" "GET") && negb (String.eqb "GET" "HEAD")) with false.
    cbv iota. pose proof (timestamp_guard_passes r req Hts) as Hg.
    unfold createdUnix in Hg. rewrite Hg.
    change (String.eqb "GET" "HEAD") with false. cbv iota.
    rewrite Ho, Hl.
    apply extractParam_ok in Ho; [|unfold maxInt; lia].
    apply extractParam_ok in Hl; [|unfold maxInt, defaultRouteListingLimit; lia].
    by rewrite slice_overflow by lia.
Qed.

Local Ltac status_cases :=
  repeat split; try lia; try tauto; try discriminate;
  try (intros _;
       first [ by left
             | right; split; [done|by left]
             | right; split; [done|by right] ]).

(** The handler answers with 200, 400, 405 or 500 and nothing else: 405
    exactly for the methods other than GET and HEAD, 500 only where JSON
    was asked for on a GET, and a 400 names what was wrong in its body. *)
Theorem ServeHTTP_statuses r req w :
  ServeHTTP r newRecorder req = Returns w ->
  (status w = 200 \/ status w = 400 \/ status w = 405 \/ status w = 500) /\
  (status w = 405 <-> Method req <> "GET" /\ Method req <> "HEAD") /\
  (status w = 500 -> Method req = "GET" /\ acceptsJSON req = true) /\
  (status w = 400 ->
   body w = "invalid timestamp" +:+ newline \/
   Method req = "GET" /\
   (body w = "invalid offset" +:+ newline \/ body w = "invalid limit" +:+ newline)).
Proof.
  intros Hs. unfold ServeHTTP in Hs.
  destruct (String.eqb_spec (Method req) "GET") as [HG|HG].
  - simpl in Hs. rewrite HG in Hs.
    change (String.eqb "GET" "HEAD") with false in Hs. cbv iota in Hs.
    assert (Method req <> "HEAD") as HH by (rewrite HG; by intros [=]).
    destruct (negb _ && negb _).
    { inversion Hs; subst w. change (status _) with 400. status_cases. }
    destruct (extractParam req "offset" 0) as [offset [e|]].
    { inversion Hs; subst w. change (status _) with 400. status_cases. }
    destruct (extractParam req "limit" defaultRouteListingLimit) as [limit [e|]].
    { inversion Hs; subst w. change (status _) with 400. status_cases. }
    destruct (slice _ _ _) as [page|]; [|discriminate].
    destruct (acceptsJSON req).
    + unfold Encode in Hs. destruct (json_Marshal page) as [b|].
      * inversion Hs; subst w. change (status _) with 200. status_cases.
      * inversion Hs; subst w. change (status _) with 500. status_cases.
    + inversion Hs; subst w. change (status _) with 200. status_cases.
  - simpl in Hs. destruct (String.eqb_spec (Method req) "HEAD") as [HH|HH].
    + simpl in Hs. destruct (negb _ && negb _).
      { inversion Hs; subst w. change (status _) with 400. status_cases. }
      destruct (acceptsJSON req); inversion Hs; subst w; change (status _) with 200;
        status_cases.
    + inversion Hs; subst w. change (status _) with 405. status_cases.
Qed.

End handler_outcomes.

(** ** Decimal parameters *)

Lemma parse_digits_string_of_uint (d : Decimal.uint) (acc : Z) :
  parse_digits (NilEmpty.string_of_uint d) acc = Some (uint_val d acc).
Proof.
  revert acc. induction d as [|d IH|d IH|d IH|d IH|d IH|d IH|d IH|d IH|d IH|d IH];
    intros acc; [reflexivity|exact (IH _)..].
Qed.

Lemma uint_val_pos (d : Decimal.uint) (acc : positive) :
  uint_val d (Z.pos acc) = Z.pos (Pos.of_uint_acc d acc).
Proof.
  revert acc. induction d as [|d IH|d IH|d IH|d IH|d IH|d IH|d IH|d IH|d IH|d IH];
    intros acc; simpl; [reflexivity|rewrite <- IH; f_equal; lia..].
Qed.

Lemma uint_val_zero (d : Decimal.uint) : uint_val d 0 = Z.of_N (Pos.of_uint d).
Proof.
  induction d as [|d IH|d IH|d IH|d IH|d IH|d IH|d IH|d IH|d IH|d IH]; simpl;
    [reflexivity|exact IH|apply (uint_val_pos d)..].
Qed.

Lemma uint_val_to_uint (p : positive) : uint_val (Pos.to_uint p) 0 = Z.pos p.
Proof. by rewrite uint_val_zero, DecimalPos.Unsigned.of_to. Qed.

Lemma Atoi_digits (d : Decimal.uint) :
  d <> Decimal.Nil ->
  Atoi (NilEmpty.string_of_uint d) =
    (if (minInt <=? uint_val d 0) && (uint_val d 0 <=? maxInt)
     then Some (uint_val d 0) else None) /\
  Atoi (String "-" (NilEmpty.string_of_uint d)) =
    (if (minInt <=? - uint_val d 0) && (- uint_val d 0 <=? maxInt)
     then Some (- uint_val d 0) else None).
Proof.
  intros Hd. destruct d; [done|..]; split; unfold Atoi; simpl;
    by rewrite parse_digits_string_of_uint.
Qed.

(** [Atoi] reads back what [Itoa] prints, for every value of [int]. *)
Lemma Atoi_Itoa (n : Z) : minInt <= n <= maxInt -> Atoi (Itoa n) = Some n.
Proof.
  intros Hn. destruct n as [|p|p]; [reflexivity|..];
    pose proof (DecimalPos.Unsigned.to_uint_nonnil p) as Hnil;
    destruct (Atoi_digits (Pos.to_uint p) Hnil) as [Hpos Hneg];
    rewrite uint_val_to_uint in Hpos, Hneg;
    assert (NilZero.string_of_uint (Pos.to_uint p)
            = NilEmpty.string_of_uint (Pos.to_uint p)) as Hz
      by (by destruct (Pos.to_uint p)).
  - change (Itoa (Z.pos p)) with (NilZero.string_of_uint (Pos.to_uint p)).
    rewrite Hz, Hpos.
    replace ((minInt <=? Z.pos p) && (Z.pos p <=? maxInt)) with true; [done|].
    symmetry. rewrite andb_true_iff, !Z.leb_le. lia.
  - change (Itoa (Z.neg p))
      with (String "-" (NilZero.string_of_uint (Pos.to_uint p))).
    rewrite Hz, Hneg. change (- Z.pos p) with (Z.neg p).
    replace ((minInt <=? Z.neg p) && (Z.neg p <=? maxInt)) with true; [done|].
    symmetry. rewrite andb_true_iff, !Z.leb_le. lia.
Qed.

(** A parameter written with [Itoa] is read back by [extractParam]: a
    value from 0 to the largest [int] comes back as it is, a negative one
    is refused with the value 0. *)
Theorem extractParam_reads_Itoa (req : Request) (key : string) (d n : Z) :
  (0 <= n <= maxInt ->
   extractParam (with_param req key (Itoa n)) key d = (n, None)) /\
  (minInt <= n < 0 ->
   exists e, extractParam (with_param req key (Itoa n)) key d = (0, Some e)).
Proof.
  assert (minInt <= n <= maxInt ->
          String.eqb (Values_Get (Form (with_param req key (Itoa n))) key) EmptyString
          = false) as Hne.
  { intros Hn. apply String.eqb_neq. unfold with_param. simpl.
    rewrite Values_Get_insert_eq. intros Hempty.
    pose proof (Atoi_Itoa n Hn) as Ha. by rewrite Hempty in Ha. }
  split; intros Hn; unfold extractParam; rewrite Hne by (unfold minInt, maxInt in *; lia);
    unfold with_param; simpl; rewrite Values_Get_insert_eq;
    rewrite Atoi_Itoa by (unfold minInt, maxInt in *; lia).
  - by destruct (Z.ltb_spec n 0); [lia|].
  - destruct (Z.ltb_spec n 0); [by eexists|lia].
Qed.

(** ** Requests that are answered alike *)

Section handler_relations.
Context {eskip_Route : Type} `{!Eskip eskip_Route} {matcher : Type}.
Implicit Types (r : Routing eskip_Route matcher) (req : Request)
  (w : ResponseWriter).

(** Two requests that agree on what the handler reads of them, and that
    both pass or both fail the timestamp check, are answered alike. *)
Lemma ServeHTTP_same_reads r w req req' :
  Method req = Method req' ->
  ReqHeader req = ReqHeader req' ->
  (timestampOK r req <-> timestampOK r req') ->
  extractParam req "offset" 0 = extractParam req' "offset" 0 ->
  extractParam req "limit" defaultRouteListingLimit
    = extractParam req' "limit" defaultRouteListingLimit ->
  extractPretty req = extractPretty req' ->
  ServeHTTP r w req = ServeHTTP r w req'.
Proof.
  intros HM HH Hts Ho Hl Hp. unfold ServeHTTP, acceptsJSON.
  rewrite <- HM, <- HH, <- Ho, <- Hl, <- Hp.
  destruct (negb (String.eqb (Method req) "GET")
            && negb (String.eqb (Method req) "HEAD")); [reflexivity|].
  destruct (negb (String.eqb (Values_Get (Form req) "timestamp") EmptyString)
            && negb (String.eqb (FormatInt (Unix (created (Load r))))
                       (Values_Get (Form req) "timestamp"))) eqn:Hg;
    destruct (negb (String.eqb (Values_Get (Form req') "timestamp") EmptyString)
              && negb (String.eqb (FormatInt (Unix (created (Load r))))
                         (Values_Get (Form req') "timestamp"))) eqn:Hg';
    try reflexivity.
  - apply timestamp_guard_fails, Hts in Hg'.
    apply (timestamp_guard_passes r req) in Hg'. unfold createdUnix in Hg'. congruence.
  - apply timestamp_guard_fails, Hts in Hg.
    apply (timestamp_guard_passes r req') in Hg. unfold createdUnix in Hg. congruence.
Qed.

(** The headers of a GET or HEAD that is answered without an error
    status. *)
Lemma ServeHTTP_ok_headers r req w :
  Method req = "GET" \/ Method req = "HEAD" ->
  ServeHTTP r newRecorder req = Returns w -> status w < 400 ->
  Header w =
    Header (listingHeaders r
              (if acceptsJSON req then "application/json" else "text/plain")).
Proof.
  intros [HM|HM] Hs Hst.
  - pose proof (ServeHTTP_GET_ok r req w HM Hs Hst) as Hw.
    destruct (acceptsJSON req); [by destruct Hw as (parts & _ & ->)|by subst w].
  - assert (timestampOK r req) as Hts by (eapply ServeHTTP_ok_timestamp; eauto).
    rewrite ServeHTTP_HEAD in Hs by done. by inversion Hs.
Qed.

(** A HEAD carries the headers the GET with the same parameters is
    answered with, and no body. *)
Theorem HEAD_has_the_headers_of_GET r req w :
  Method req = "GET" ->
  ServeHTTP r newRecorder req = Returns w ->
  status w < 400 ->
  exists w',
    ServeHTTP r newRecorder (with_method req "HEAD") = Returns w' /\
    Header w' = Header w /\ body w' = EmptyString /\ status w' = 200.
Proof.
  intros HM Hs Hst.
  assert (timestampOK r req) as Hts by (eapply ServeHTTP_ok_timestamp; eauto).
  eexists. split; [by apply ServeHTTP_HEAD|].
  split; [|by split].
  symmetry. apply (ServeHTTP_ok_headers r req w); auto.
Qed.

(** The stamp a listing carries in [X-Timestamp], sent back as the
    [timestamp] parameter, is accepted: the request is answered as
    before. *)
Theorem X_Timestamp_is_accepted_back r req w t :
  Method req = "GET" \/ Method req = "HEAD" ->
  ServeHTTP r newRecorder req = Returns w ->
  status w < 400 ->
  Header w !! "X-Timestamp" = Some [t] ->
  ServeHTTP r newRecorder (with_param req "timestamp" t) = Returns w.
Proof.
  intros HM Hs Hst Ht.
  rewrite (ServeHTTP_ok_headers r req w HM Hs Hst) in Ht.
  destruct (listingHeaders_lookup r
              (if acceptsJSON req then "application/json" else "text/plain"))
    as (Hstamp & _ & _).
  unfold routesTimestampName in Hstamp. rewrite Hstamp in Ht.
  injection Ht as <-.
  rewrite <- Hs. symmetry. apply ServeHTTP_same_reads; try reflexivity.
  - split; intros _.
    + right. unfold with_param. simpl. apply Values_Get_insert_eq.
    + eapply ServeHTTP_ok_timestamp; eauto.
  - apply extractParam_same_value. unfold with_param. simpl.
    symmetry. by apply Values_Get_insert_ne.
  - apply extractParam_same_value. unfold with_param. simpl.
    symmetry. by apply Values_Get_insert_ne.
  - unfold extractPretty, with_param. simpl. by rewrite lookup_insert_ne.
Qed.

(** [nopretty=0] and [nopretty=false] leave the listing as it is without
    the parameter. *)
Theorem nopretty_zero_or_false_is_pretty r w req v :
  v = "0" \/ v = "false" ->
  ServeHTTP r w (with_param req "nopretty" v)
  = ServeHTTP r w (without_param req "nopretty").
Proof.
  intros Hv. apply ServeHTTP_same_reads; try reflexivity.
  - unfold timestampOK, with_param, without_param. simpl.
    by rewrite Values_Get_insert_ne, Values_Get_delete_ne.
  - apply extractParam_same_value. unfold with_param, without_param. simpl.
    by rewrite Values_Get_insert_ne, Values_Get_delete_ne.
  - apply extractParam_same_value. unfold with_param, without_param. simpl.
    by rewrite Values_Get_insert_ne, Values_Get_delete_ne.
  - unfold extractPretty, with_param, without_param. simpl.
    rewrite lookup_insert_eq, lookup_delete_eq. by destruct Hv as [-> | ->].
Qed.

(** When a route of the page cannot be encoded, nothing of the array is
    written: the answer is status 500 with the status text as its body,
    and it still carries the listing headers set before. *)
Theorem JSON_encoding_failure_is_500 r req offset limit :
  Method req = "GET" -> timestampOK r req ->
  extractParam req "offset" 0 = (offset, None) ->
  extractParam req "limit" defaultRouteListingLimit = (limit, None) ->
  Z.min offset (len (validRoutes (Load r))) + limit <= maxInt ->
  acceptsJSON req = true ->
  mapM MarshalJSON (pageOf r req) = None ->
  exists w,
    ServeHTTP r newRecorder req = Returns w /\
    status w = 500 /\
    body w = "Internal Server Error" +:+ newline /\
    Header w !! "Content-Type" = Some ["text/plain; charset=utf-8"] /\
    Header w !! "X-Timestamp" = Some [createdUnix r] /\
    Header w !! "X-Count" = Some [routesCount r].
Proof.
  intros HM Hts Ho Hl Hsum Hacc Hfail.
  assert (0 <= offset <= maxInt) as Hor
    by (eapply extractParam_ok; [|exact Ho]; unfold maxInt; lia).
  assert (0 <= limit <= maxInt) as Hlr
    by (eapply extractParam_ok; [|exact Hl];
        unfold maxInt, defaultRouteListingLimit; lia).
  unfold pageOf in Hfail. rewrite Ho, Hl in Hfail. simpl in Hfail.
  unfold ServeHTTP. rewrite HM.
  change (negb (String.eqb "GET" "GET") && negb (String.eqb "GET" "HEAD")) with false.
  cbv iota. pose proof (timestamp_guard_passes r req Hts) as Hg.
  unfold createdUnix in Hg. rewrite Hg.
  change (String.eqb "GET" "HEAD") with false. cbv iota.
  rewrite Ho, Hl, slice_in_range by lia. rewrite Hacc.
  unfold Encode, json_Marshal. rewrite Hfail. simpl.
  eexists. split; [reflexivity|]. by repeat split.
Qed.

End handler_relations.

(** ** The first generation *)

Section first_generation.
Context {eskip_Route : Type} `{!Eskip eskip_Route} {matcher : Type}.

(** Before the first update a routing lists no route: a GET with accepted
    parameters is answered with status 200 and [X-Count: 0], as the empty
    JSON array or as what the printer writes for no route, and never
    panics, whatever the offset and the limit. *)
Theorem New_lists_no_route (initialMatcher : matcher) (now : Time)
    (req : Request) (offset limit : Z) :
  Method req = "GET" ->
  timestampOK (New (eskip_Route := eskip_Route) initialMatcher now) req ->
  extractParam req "offset" 0 = (offset, None) ->
  extractParam req "limit" defaultRouteListingLimit = (limit, None) ->
  exists w,
    ServeHTTP (New initialMatcher now) newRecorder req = Returns w /\
    status w = 200 /\
    Header w !! "X-Count" = Some ["0"] /\
    body w = if acceptsJSON req then "[]" +:+ newline
             else Fprint (extractPretty req) [].
Proof.
  intros HM Hts Ho Hl.
  assert (0 <= offset <= maxInt) as Hor
    by (eapply extractParam_ok; [|exact Ho]; unfold maxInt; lia).
  assert (0 <= limit <= maxInt) as Hlr
    by (eapply extractParam_ok; [|exact Hl];
        unfold maxInt, defaultRouteListingLimit; lia).
  unfold ServeHTTP. rewrite HM.
  change (negb (String.eqb "GET" "GET") && negb (String.eqb "GET" "HEAD")) with false.
  cbv iota. pose proof (timestamp_guard_passes _ req Hts) as Hg.
  unfold createdUnix in Hg. rewrite Hg.
  change (String.eqb "GET" "HEAD") with false. cbv iota.
  rewrite Ho, Hl.
  rewrite slice_in_range by (change (len (validRoutes (Load (New initialMatcher now))))
                               with 0; lia).
  change (elems_of (validRoutes (Load (New initialMatcher now)))) with (@nil eskip_Route).
  rewrite drop_nil, take_nil.
  destruct (acceptsJSON req); eexists; (split; [reflexivity|]); by repeat split.
Qed.

End first_generation.

(** * Further properties of [plugins.go] *)

(** ** The loaders *)

Section loader_facts.
Context {Spec PredicateSpec DataClient Plugin : Type}.
Implicit Types (host : @PluginHost Spec PredicateSpec DataClient Plugin)
  (path : string) (args : list string).

(** Each single-type loader returns a nil error, or a non-nil error with
    a nil spec: what the plugin's function returned next to its error is
    dropped. *)
Theorem single_loaders_all_or_nothing host path args :
  ((LoadFilterPlugin host path args).2 = None \/
    (LoadFilterPlugin host path args).1 = None) /\
  ((LoadPredicatePlugin host path args).2 = None \/
    (LoadPredicatePlugin host path args).1 = None) /\
  ((LoadDataClientPlugin host path args).2 = None \/
    (LoadDataClientPlugin host path args).1 = None).
Proof.
  unfold LoadFilterPlugin, LoadPredicatePlugin, LoadDataClientPlugin.
  destruct (plugin_Open host path) as [mod_|e]; [|by (split; [|split]; right)].
  split; [|split].
  - destruct (Plugin_Lookup host mod_ "InitFilter") as [sym|e]; [|by right].
    unfold loadFilterPlugin. destruct sym as [|fn| | |]; try by right.
    destruct (fn args) as [spec [e|]]; [by right|by left].
  - destruct (Plugin_Lookup host mod_ "InitPredicate") as [sym|e]; [|by right].
    unfold loadPredicatePlugin. destruct sym as [| |fn| |]; try by right.
    destruct (fn args) as [spec [e|]]; [by right|by left].
  - destruct (Plugin_Lookup host mod_ "InitDataClient") as [sym|e]; [|by right].
    unfold loadDataClientPlugin. destruct sym as [| | |fn|]; try by right.
    destruct (fn args) as [spec [e|]]; [by right|by left].
Qed.

(** [LoadMultiPlugin] succeeds exactly when the file opens, exports
    [InitPlugin] with the multi-type signature, and that function returns
    no error on the arguments; it then returns what the function
    returned. *)
Theorem LoadMultiPlugin_succeeds_iff host path args fltr pred dc :
  LoadMultiPlugin host path args = (fltr, pred, dc, None) <->
  exists mod_ fn,
    plugin_Open host path = inl mod_ /\
    Plugin_Lookup host mod_ "InitPlugin" = inl (InitPluginFunc fn) /\
    fn args = (fltr, pred, dc, None).
Proof.
  unfold LoadMultiPlugin. split.
  - destruct (plugin_Open host path) as [mod_|e]; [|discriminate].
    destruct (Plugin_Lookup host mod_ "InitPlugin") as [sym|e] eqn:Hl; [|discriminate].
    destruct sym as [fn| | | |]; try discriminate.
    destruct (fn args) as [[[f p] d] [e|]] eqn:Hfn; [discriminate|].
    intros [= -> -> ->]. by exists mod_, fn.
  - intros (mod_ & fn & -> & -> & ->). reflexivity.
Qed.

(** The single-type loaders succeed exactly when the file opens, exports
    their own symbol ([InitFilter], [InitPredicate], [InitDataClient])
    with their own signature, and that function returns no error; a
    multi-type plugin is not accepted in their place. *)
Theorem single_loaders_succeed_iff host path args :
  (forall spec,
     LoadFilterPlugin host path args = (spec, None) <->
     exists mod_ fn,
       plugin_Open host path = inl mod_ /\
       Plugin_Lookup host mod_ "InitFilter" = inl (InitFilterFunc fn) /\
       fn args = (spec, None)) /\
  (forall spec,
     LoadPredicatePlugin host path args = (spec, None) <->
     exists mod_ fn,
       plugin_Open host path = inl mod_ /\
       Plugin_Lookup host mod_ "InitPredicate" = inl (InitPredicateFunc fn) /\
       fn args = (spec, None)) /\
  (forall spec,
     LoadDataClientPlugin host path args = (spec, None) <->
     exists mod_ fn,
       plugin_Open host path = inl mod_ /\
       Plugin_Lookup host mod_ "InitDataClient" = inl (InitDataClientFunc fn) /\
       fn args = (spec, None)).
Proof.
  unfold LoadFilterPlugin, LoadPredicatePlugin, LoadDataClientPlugin.
  split; [|split]; intros spec; split.
  - destruct (plugin_Open host path) as [mod_|e]; [|discriminate].
    destruct (Plugin_Lookup host mod_ "InitFilter") as [sym|e] eqn:Hl; [|discriminate].
    unfold loadFilterPlugin. destruct sym as [|fn| | |]; try discriminate.
    destruct (fn args) as [sp [e|]] eqn:Hfn; [discriminate|].
    intros [= ->]. by exists mod_, fn.
  - intros (mod_ & fn & -> & -> & Hfn). unfold loadFilterPlugin. by rewrite Hfn.
  - destruct (plugin_Open host path) as [mod_|e]; [|discriminate].
    destruct (Plugin_Lookup host mod_ "InitPredicate") as [sym|e] eqn:Hl; [|discriminate].
    unfold loadPredicatePlugin. destruct sym as [| |fn| |]; try discriminate.
    destruct (fn args) as [sp [e|]] eqn:Hfn; [discriminate|].
    intros [= ->]. by exists mod_, fn.
  - intros (mod_ & fn & -> & -> & Hfn). unfold loadPredicatePlugin. by rewrite Hfn.
  - destruct (plugin_Open host path) as [mod_|e]; [|discriminate].
    destruct (Plugin_Lookup host mod_ "InitDataClient") as [sym|e] eqn:Hl; [|discriminate].
    unfold loadDataClientPlugin. destruct sym as [| | |fn|]; try discriminate.
    destruct (fn args) as [sp [e|]] eqn:Hfn; [discriminate|].
    intros [= ->]. by exists mod_, fn.
  - intros (mod_ & fn & -> & -> & Hfn). unfold loadDataClientPlugin. by rewrite Hfn.
Qed.

End loader_facts.

(** ** Paths and plugin names *)

Lemma of_bytes_app (l k : list ascii) :
  of_bytes (l ++ k) = of_bytes l +:+ of_bytes k.
Proof.
  unfold of_bytes. induction l as [|c l IH]; simpl; [reflexivity|].
  rewrite IH. reflexivity.
Qed.

Lemma bytes_of_bytes (l : list ascii) : bytes (of_bytes l) = l.
Proof. apply list_ascii_of_string_of_list_ascii. Qed.

Lemma of_bytes_bytes (s : string) : of_bytes (bytes s) = s.
Proof. apply string_of_list_ascii_of_string. Qed.

Lemma bytes_app (s t : string) : bytes (s +:+ t) = (bytes s ++ bytes t)%list.
Proof.
  unfold bytes. induction s as [|c s IH]; [reflexivity|].
  change (String c s +:+ t) with (String c (s +:+ t)). simpl. by rewrite IH.
Qed.

Lemma HasSuffix_split (s suffix : string) :
  HasSuffix s suffix = true <-> exists stem, s = stem +:+ suffix.
Proof.
  unfold HasSuffix. split.
  - intros H. apply andb_true_iff in H as [Hlen Hdrop].
    apply bool_decide_eq_true in Hdrop.
    set (k := (length (bytes s) - length (bytes suffix))%nat) in *.
    exists (of_bytes (take k (bytes s))).
    transitivity (of_bytes (take k (bytes s) ++ drop k (bytes s))).
    { by rewrite take_drop, of_bytes_bytes. }
    by rewrite of_bytes_app, Hdrop, of_bytes_bytes.
  - intros [stem ->]. rewrite bytes_app, length_app.
    apply andb_true_iff. split; [apply Nat.leb_le; lia|].
    apply bool_decide_eq_true.
    replace (length (bytes stem) + length (bytes suffix) - length (bytes suffix))%nat
      with (length (bytes stem)) by lia.
    by rewrite drop_app_length.
Qed.

(** The base name of a path that ends in [.so] ends in [.so] itself, so
    it has the three bytes that are cut off. *)
Lemma Base_of_plugin_file (path : string) :
  HasSuffix path ".so" = true ->
  exists name,
    Base path = name +:+ ".so" /\
    of_bytes (take (length (bytes (Base path)) - 3) (bytes (Base path))) = name /\
    (3 <=? length (bytes (Base path)))%nat = true.
Proof.
  intros Hso. apply HasSuffix_split in Hso as [stem ->].
  exists (of_bytes (rev (upto_separator (rev (bytes stem))))).
  assert (rev (upto_separator (strip_separators (rev (bytes stem ++ bytes ".so"))))
          = (rev (upto_separator (rev (bytes stem))) ++ bytes ".so")%list) as Hrev.
  { rewrite rev_app_distr. simpl. by rewrite <- !app_assoc. }
  assert (Base (stem +:+ ".so") =
          of_bytes (rev (upto_separator (rev (bytes stem)))) +:+ ".so") as HB.
  { unfold Base.
    replace (String.eqb (stem +:+ ".so") EmptyString) with false
      by (symmetry; apply String.eqb_neq; by destruct stem).
    rewrite bytes_app, Hrev.
    destruct (rev (upto_separator (rev (bytes stem))) ++ bytes ".so")%list
      as [|c l] eqn:Hl.
    { by apply app_eq_nil in Hl as [_ ?]. }
    rewrite <- Hl. apply of_bytes_app. }
  split; [exact HB|]. rewrite HB, bytes_app, bytes_of_bytes, length_app.
  change (length (bytes ".so")) with 3%nat.
  split.
  - replace (length (rev (upto_separator (rev (bytes stem)))) + 3 - 3)%nat
      with (length (rev (upto_separator (rev (bytes stem))))) by lia.
    by rewrite take_app_length.
  - apply Nat.leb_le. lia.
Qed.

(** ** Plugin discovery *)

Section discovery.
Context {Spec PredicateSpec DataClient Plugin : Type}.
Implicit Types (W : World Spec PredicateSpec DataClient Plugin)
  (st : loadState Spec PredicateSpec DataClient)
  (o : Options Spec PredicateSpec DataClient).

Lemma visit_spec st e :
  exists st',
    visit st e = Returns st' /\
    opts st' = opts st /\
    (is_plugin_file e = false -> st' = st) /\
    forall name path,
      found st' !! name = Some path ->
      found st !! name = Some path \/
      e = WalkInfo path false /\ HasSuffix path ".so" = true /\
      Base path = name +:+ ".so".
Proof.
  destruct e as [p|p [|]]; unfold visit, is_plugin_file.
  { exists st. by repeat split; auto. }
  { exists st. by repeat split; auto. }
  destruct (HasSuffix p ".so") eqn:Hso.
  - destruct (Base_of_plugin_file p Hso) as (stem & HB & Hstem & H3).
    cbv zeta. rewrite H3, Hstem. eexists. split; [reflexivity|].
    split; [reflexivity|]. split; [discriminate|].
    intros name path. simpl. intros Hl.
    apply lookup_insert_Some in Hl as [[<- <-]|[_ Hl]]; [right|by left].
    by repeat split.
  - exists st. by repeat split; auto.
Qed.

Lemma walk_entries_spec es st :
  exists st',
    walk_entries es st = Returns st' /\
    opts st' = opts st /\
    (forallb (fun e => negb (is_plugin_file e)) es = true -> st' = st) /\
    forall name path,
      found st' !! name = Some path ->
      found st !! name = Some path \/
      WalkInfo path false ∈ es /\ HasSuffix path ".so" = true /\
      Base path = name +:+ ".so".
Proof.
  revert st. induction es as [|e es IH]; intros st; simpl.
  { exists st. by repeat split; auto. }
  destruct (visit_spec st e) as (st1 & -> & Ho1 & Hsame1 & Hf1).
  destruct (IH st1) as (st2 & -> & Ho2 & Hsame2 & Hf2).
  exists st2. split; [reflexivity|]. split; [congruence|]. split.
  - intros Hall. apply andb_true_iff in Hall as [He Hes].
    apply negb_true_iff in He. rewrite (Hsame2 Hes). by apply Hsame1.
  - intros name path Hl. destruct (Hf2 name path Hl) as [Hl1|(Hin & ? & ?)].
    + destruct (Hf1 name path Hl1) as [?|(-> & ? & ?)]; [by left|right].
      split; [apply list_elem_of_here|done].
    + right. split; [by apply list_elem_of_further|done].
Qed.

Lemma findPlugins_spec W dirs st :
  exists st',
    findPlugins W dirs st = Returns st' /\
    opts st' = opts st /\
    ((forall dir e, dir ∈ dirs -> e ∈ Walk W dir -> is_plugin_file e = false) ->
     st' = st) /\
    forall name path,
      found st' !! name = Some path ->
      found st !! name = Some path \/
      (exists dir, dir ∈ dirs /\ WalkInfo path false ∈ Walk W dir) /\
      HasSuffix path ".so" = true /\ Base path = name +:+ ".so".
Proof.
  revert st. induction dirs as [|dir dirs IH]; intros st; simpl.
  { exists st. by repeat split; auto. }
  destruct (walk_entries_spec (Walk W dir) st) as (st1 & -> & Ho1 & Hsame1 & Hf1).
  destruct (IH st1) as (st2 & -> & Ho2 & Hsame2 & Hf2).
  exists st2. split; [reflexivity|]. split; [congruence|]. split.
  - intros Hnone. rewrite Hsame2.
    + apply Hsame1. apply forallb_forall. intros e He.
      apply negb_true_iff, (Hnone dir); [apply list_elem_of_here|].
      by apply list_elem_of_In.
    + intros d e Hd. apply Hnone. by apply list_elem_of_further.
  - intros name path Hl. destruct (Hf2 name path Hl) as [Hl1|((d & Hd & Hin) & ? & ?)].
    + destruct (Hf1 name path Hl1) as [?|(Hin & ? & ?)]; [by left|right].
      split; [|done]. exists dir. split; [apply list_elem_of_here|done].
    + right. split; [|done]. exists d. split; [by apply list_elem_of_further|done].
Qed.

(** The walk over the plugin directories never panics and leaves the
    options alone; every plugin it records is a file that was walked,
    whose path ends in [.so], under its base name without that suffix. *)
Theorem findPlugins_records_base_names W o :
  exists st,
    findPlugins W (PluginDirs o) {| opts := o; found := ∅; stdout := [] |}
      = Returns st /\
    opts st = o /\
    forall name path,
      found st !! name = Some path ->
      (exists dir, dir ∈ PluginDirs o /\ WalkInfo path false ∈ Walk W dir) /\
      HasSuffix path ".so" = true /\
      Base path = name +:+ ".so".
Proof.
  destruct (findPlugins_spec W (PluginDirs o) {| opts := o; found := ∅; stdout := [] |})
    as (st & Hs & Ho & _ & Hf).
  exists st. split; [exact Hs|]. split; [exact Ho|].
  intros name path Hl. destruct (Hf name path Hl) as [Hempty|?]; [|done].
  simpl in Hempty. by rewrite lookup_empty in Hempty.
Qed.

End discovery.

(** ** What loading does to the options *)

Section loading.
Context {Spec PredicateSpec DataClient Plugin : Type}.
Implicit Types (W : World Spec PredicateSpec DataClient Plugin)
  (st : loadState Spec PredicateSpec DataClient)
  (o : Options Spec PredicateSpec DataClient)
  (plugs : list (list string)).

Lemma extends_refl o : extends o o.
Proof. by repeat split. Qed.

Lemma extends_trans o1 o2 o3 : extends o1 o2 -> extends o2 o3 -> extends o1 o3.
Proof.
  intros (H1 & H2 & H3 & H4 & H5 & H6 & H7 & H8)
         (K1 & K2 & K3 & K4 & K5 & K6 & K7 & K8).
  repeat split; try congruence; by etrans.
Qed.

Local Ltac solve_extends :=
  unfold extends, appendFilter, appendPredicate, appendDataClient, printf, set_found;
  simpl; repeat split; try reflexivity; try (by apply prefix_app_r).

Lemma extends_appendFilter st spec : extends (opts st) (opts (appendFilter st spec)).
Proof. solve_extends. Qed.

Lemma extends_appendPredicate st spec :
  extends (opts st) (opts (appendPredicate st spec)).
Proof. solve_extends. Qed.

Lemma extends_appendDataClient st spec :
  extends (opts st) (opts (appendDataClient st spec)).
Proof. solve_extends. Qed.

Lemma loadMultiPlugins_extends W plugs st st' :
  loadMultiPlugins W plugs st = Returns st' -> extends (opts st) (opts st').
Proof.
  revert st. induction plugs as [|[|name args] plugs IH]; intros st; simpl.
  - intros [= <-]. apply extends_refl.
  - discriminate.
  - destruct (found st !! name) as [path|]; [|by intros H; apply IH in H].
    destruct (LoadMultiPlugin (host W) path args) as [[[fltr pred] dc] [e|]];
      [by intros H; apply IH in H|].
    intros H. apply IH in H. eapply extends_trans; [|exact H].
    destruct fltr, pred, dc; solve_extends.
Qed.

Lemma loadFilterPlugins_extends W plugs st st' :
  loadFilterPlugins W plugs st = Returns st' -> extends (opts st) (opts st').
Proof.
  revert st. induction plugs as [|[|name args] plugs IH]; intros st; simpl.
  - intros [= <-]. apply extends_refl.
  - discriminate.
  - destruct (found st !! name) as [path|]; [|by intros H; apply IH in H].
    destruct (LoadFilterPlugin (host W) path args) as [spec [e|]];
      [by intros H; apply IH in H|].
    destruct spec as [sp|]; [|discriminate].
    intros H. apply IH in H. eapply extends_trans; [|exact H]. solve_extends.
Qed.

Lemma loadPredicatePlugins_extends W plugs st st' :
  loadPredicatePlugins W plugs st = Returns st' -> extends (opts st) (opts st').
Proof.
  revert st. induction plugs as [|[|name args] plugs IH]; intros st; simpl.
  - intros [= <-]. apply extends_refl.
  - discriminate.
  - destruct (found st !! name) as [path|]; [|by intros H; apply IH in H].
    destruct (LoadPredicatePlugin (host W) path args) as [spec [e|]];
      [by intros H; apply IH in H|].
    destruct spec as [sp|]; [|discriminate].
    intros H. apply IH in H. eapply extends_trans; [|exact H]. solve_extends.
Qed.

Lemma loadDataClientPlugins_extends W plugs st st' :
  loadDataClientPlugins W plugs st = Returns st' -> extends (opts st) (opts st').
Proof.
  revert st. induction plugs as [|[|name args] plugs IH]; intros st; simpl.
  - intros [= <-]. apply extends_refl.
  - discriminate.
  - destruct (found st !! name) as [path|]; [|by intros H; apply IH in H].
    destruct (LoadDataClientPlugin (host W) path args) as [spec [e|]];
      [by intros H; apply IH in H|].
    intros H. apply IH in H. eapply extends_trans; [|exact H]. solve_extends.
Qed.

Lemma autoFilter_extends W mod_ name path st :
  extends (opts st) (opts (autoFilter W mod_ name path st).1).
Proof.
  unfold autoFilter.
  destruct (Plugin_Lookup (host W) mod_ "InitFilter") as [sym|e];
    [|apply extends_refl].
  destruct (loadFilterPlugin sym path []) as [spec [e|]];
    [apply extends_refl|apply extends_appendFilter].
Qed.

Lemma autoPredicate_extends W mod_ name path st :
  extends (opts st) (opts (autoPredicate W mod_ name path st).1).
Proof.
  unfold autoPredicate.
  destruct (Plugin_Lookup (host W) mod_ "InitPredicate") as [sym|e];
    [|apply extends_refl].
  destruct (loadPredicatePlugin sym path []) as [spec [e|]];
    [apply extends_refl|apply extends_appendPredicate].
Qed.

Lemma autoDataClient_extends W mod_ name path st :
  extends (opts st) (opts (autoDataClient W mod_ name path st).1).
Proof.
  unfold autoDataClient.
  destruct (Plugin_Lookup (host W) mod_ "InitDataClient") as [sym|e];
    [|apply extends_refl].
  destruct (loadDataClientPlugin sym path []) as [spec [e|]];
    [apply extends_refl|apply extends_appendDataClient].
Qed.

Lemma autoLoad_extends W name path st : extends (opts st) (opts (autoLoad W name path st)).
Proof.
  unfold autoLoad.
  destruct (plugin_Open (host W) path) as [mod_|e]; [|apply extends_refl].
  set (st0 := printf st _).
  pose proof (autoFilter_extends W mod_ name path st0) as Hf.
  destruct (autoFilter W mod_ name path st0) as [st1 [|]]; [|exact Hf].
  pose proof (autoPredicate_extends W mod_ name path st1) as Hp.
  destruct (autoPredicate W mod_ name path st1) as [st2 [|]];
    [|by eapply extends_trans].
  set (st2' := printf st2 _).
  pose proof (autoDataClient_extends W mod_ name path st2') as Hd.
  eapply extends_trans; [exact Hf|]. eapply extends_trans; [exact Hp|]. exact Hd.
Qed.

Lemma autoLoadAll_extends W st : extends (opts st) (opts (autoLoadAll W st)).
Proof.
  unfold autoLoadAll. generalize (range_order W (found st)). intros entries.
  revert st. induction entries as [|[name path] entries IH]; intros st; simpl.
  - apply extends_refl.
  - eapply extends_trans; [apply (autoLoad_extends W name path)|apply IH].
Qed.

Lemma findAndLoadPlugins_extends W o st :
  findAndLoadPlugins W o = Returns st -> extends o (opts st).
Proof.
  unfold findAndLoadPlugins. simpl.
  destruct (findPlugins_spec W (PluginDirs o) {| opts := o; found := ∅; stdout := [] |})
    as (st1 & -> & Ho1 & _ & _).
  simpl in Ho1.
  destruct (loadMultiPlugins W _ st1) as [st2|] eqn:H2; [|discriminate].
  destruct (loadFilterPlugins W _ st2) as [st3|] eqn:H3; [|discriminate].
  destruct (loadPredicatePlugins W _ st3) as [st4|] eqn:H4; [|discriminate].
  destruct (loadDataClientPlugins W _ st4) as [st5|] eqn:H5; [|discriminate].
  intros [= <-].
  apply loadMultiPlugins_extends in H2. apply loadFilterPlugins_extends in H3.
  apply loadPredicatePlugins_extends in H4. apply loadDataClientPlugins_extends in H5.
  rewrite Ho1 in H2.
  repeat (eapply extends_trans; [eassumption|]). apply autoLoadAll_extends.
Qed.

(** Loading plugins only appends to the three custom lists: the specs
    and data clients that were there stay, in place, at the front, and
    the plugin directories and the four plugin lists are left as they
    were. *)
Theorem findAndLoadPlugins_only_appends W o st :
  findAndLoadPlugins W o = Returns st ->
  PluginDirs (opts st) = PluginDirs o /\
  MultiPlugins (opts st) = MultiPlugins o /\
  FilterPlugins (opts st) = FilterPlugins o /\
  PredicatePlugins (opts st) = PredicatePlugins o /\
  DataClientPlugins (opts st) = DataClientPlugins o /\
  CustomFilters o `prefix_of` CustomFilters (opts st) /\
  CustomPredicates o `prefix_of` CustomPredicates (opts st) /\
  CustomDataClients o `prefix_of` CustomDataClients (opts st).
Proof. apply findAndLoadPlugins_extends. Qed.

End loading.

(** ** Edge cases of loading *)

Lemma append_inv_tail (s s' t : string) : s +:+ t = s' +:+ t -> s = s'.
Proof.
  intros H. apply (f_equal bytes) in H. rewrite !bytes_app in H.
  apply app_inv_tail in H. rewrite <- (of_bytes_bytes s), <- (of_bytes_bytes s').
  by rewrite H.
Qed.

Section loading_edges.
Context {Spec PredicateSpec DataClient Plugin : Type}.
Implicit Types (W : World Spec PredicateSpec DataClient Plugin)
  (st : loadState Spec PredicateSpec DataClient)
  (o : Options Spec PredicateSpec DataClient)
  (plugs : list (list string)).

Lemma loadMultiPlugins_nothing_found W plugs st :
  found st = ∅ -> [] ∉ plugs ->
  exists st', loadMultiPlugins W plugs st = Returns st' /\
              opts st' = opts st /\ found st' = ∅.
Proof.
  revert st. induction plugs as [|[|name args] plugs IH]; intros st Hf Hne; simpl.
  - by exists st.
  - exfalso. apply Hne, list_elem_of_here.
  - rewrite Hf, lookup_empty.
    match goal with
    | |- exists st', ?loop W plugs ?st1 = _ /\ _ =>
        destruct (IH st1) as (st' & Hs & Ho & Hf'); [done| |by exists st']
    end.
    intros Hin. apply Hne. by apply list_elem_of_further.
Qed.

Lemma loadFilterPlugins_nothing_found W plugs st :
  found st = ∅ -> [] ∉ plugs ->
  exists st', loadFilterPlugins W plugs st = Returns st' /\
              opts st' = opts st /\ found st' = ∅.
Proof.
  revert st. induction plugs as [|[|name args] plugs IH]; intros st Hf Hne; simpl.
  - by exists st.
  - exfalso. apply Hne, list_elem_of_here.
  - rewrite Hf, lookup_empty.
    match goal with
    | |- exists st', ?loop W plugs ?st1 = _ /\ _ =>
        destruct (IH st1) as (st' & Hs & Ho & Hf'); [done| |by exists st']
    end.
    intros Hin. apply Hne. by apply list_elem_of_further.
Qed.

Lemma loadPredicatePlugins_nothing_found W plugs st :
  found st = ∅ -> [] ∉ plugs ->
  exists st', loadPredicatePlugins W plugs st = Returns st' /\
              opts st' = opts st /\ found st' = ∅.
Proof.
  revert st. induction plugs as [|[|name args] plugs IH]; intros st Hf Hne; simpl.
  - by exists st.
  - exfalso. apply Hne, list_elem_of_here.
  - rewrite Hf, lookup_empty.
    match goal with
    | |- exists st', ?loop W plugs ?st1 = _ /\ _ =>
        destruct (IH st1) as (st' & Hs & Ho & Hf'); [done| |by exists st']
    end.
    intros Hin. apply Hne. by apply list_elem_of_further.
Qed.

Lemma loadDataClientPlugins_nothing_found W plugs st :
  found st = ∅ -> [] ∉ plugs ->
  exists st', loadDataClientPlugins W plugs st = Returns st' /\
              opts st' = opts st /\ found st' = ∅.
Proof.
  revert st. induction plugs as [|[|name args] plugs IH]; intros st Hf Hne; simpl.
  - by exists st.
  - exfalso. apply Hne, list_elem_of_here.
  - rewrite Hf, lookup_empty.
    match goal with
    | |- exists st', ?loop W plugs ?st1 = _ /\ _ =>
        destruct (IH st1) as (st' & Hs & Ho & Hf'); [done| |by exists st']
    end.
    intros Hin. apply Hne. by apply list_elem_of_further.
Qed.

Lemma autoLoadAll_nothing_found W st :
  range_is_fair W -> found st = ∅ -> autoLoadAll W st = st.
Proof.
  intros Hfair Hf. unfold autoLoadAll.
  pose proof (Hfair (found st)) as Hperm. rewrite Hf, map_to_list_empty in Hperm.
  apply Permutation_nil_r in Hperm. by rewrite Hf, Hperm.
Qed.

(** When the walk comes across no file ending in [.so], nothing is
    loaded, whatever the plugin lists name: the options are left exactly
    as they were. *)
Theorem findAndLoadPlugins_without_plugin_files W o :
  range_is_fair W ->
  (forall dir e, dir ∈ PluginDirs o -> e ∈ Walk W dir -> is_plugin_file e = false) ->
  [] ∉ MultiPlugins o -> [] ∉ FilterPlugins o ->
  [] ∉ PredicatePlugins o -> [] ∉ DataClientPlugins o ->
  exists st,
    findAndLoadPlugins W o = Returns st /\ opts st = o /\ found st = ∅.
Proof.
  intros Hfair Hnone Hm Hf Hp Hd. unfold findAndLoadPlugins. cbn [opts].
  destruct (findPlugins_spec W (PluginDirs o) {| opts := o; found := ∅; stdout := [] |})
    as (st1 & -> & _ & Hsame & _).
  rewrite (Hsame Hnone). cbn [opts].
  match goal with
  | |- context [loadMultiPlugins W _ ?st0] =>
      destruct (loadMultiPlugins_nothing_found W (MultiPlugins o) st0 eq_refl Hm)
        as (st2 & -> & Ho2 & Hf2)
  end.
  cbn [opts] in Ho2. rewrite Ho2.
  destruct (loadFilterPlugins_nothing_found W (FilterPlugins o) st2 Hf2 Hf)
    as (st3 & -> & Ho3 & Hf3).
  rewrite Ho3, Ho2.
  destruct (loadPredicatePlugins_nothing_found W (PredicatePlugins o) st3 Hf3 Hp)
    as (st4 & -> & Ho4 & Hf4).
  rewrite Ho4, Ho3, Ho2.
  destruct (loadDataClientPlugins_nothing_found W (DataClientPlugins o) st4 Hf4 Hd)
    as (st5 & -> & Ho5 & Hf5).
  exists (autoLoadAll W st5). split; [reflexivity|].
  rewrite autoLoadAll_nothing_found by done. split; [congruence|done].
Qed.

Lemma loadMultiPlugins_empty_entry W plugs st :
  [] ∈ plugs -> loadMultiPlugins W plugs st = Panics.
Proof.
  revert st. induction plugs as [|[|name args] plugs IH]; intros st Hin.
  - by apply elem_of_nil in Hin.
  - reflexivity.
  - apply elem_of_cons in Hin as [[=]|Hin]. simpl.
    destruct (found st !! name) as [path|]; [|by apply IH].
    destruct (LoadMultiPlugin (host W) path args) as [[[fltr pred] dc] [e|]];
      by apply IH.
Qed.

Lemma loadFilterPlugins_empty_entry W plugs st :
  [] ∈ plugs -> loadFilterPlugins W plugs st = Panics.
Proof.
  revert st. induction plugs as [|[|name args] plugs IH]; intros st Hin.
  - by apply elem_of_nil in Hin.
  - reflexivity.
  - apply elem_of_cons in Hin as [[=]|Hin]. simpl.
    destruct (found st !! name) as [path|]; [|by apply IH].
    destruct (LoadFilterPlugin (host W) path args) as [[sp|] [e|]];
      try reflexivity; by apply IH.
Qed.

Lemma loadPredicatePlugins_empty_entry W plugs st :
  [] ∈ plugs -> loadPredicatePlugins W plugs st = Panics.
Proof.
  revert st. induction plugs as [|[|name args] plugs IH]; intros st Hin.
  - by apply elem_of_nil in Hin.
  - reflexivity.
  - apply elem_of_cons in Hin as [[=]|Hin]. simpl.
    destruct (found st !! name) as [path|]; [|by apply IH].
    destruct (LoadPredicatePlugin (host W) path args) as [[sp|] [e|]];
      try reflexivity; by apply IH.
Qed.

Lemma loadDataClientPlugins_empty_entry W plugs st :
  [] ∈ plugs -> loadDataClientPlugins W plugs st = Panics.
Proof.
  revert st. induction plugs as [|[|name args] plugs IH]; intros st Hin.
  - by apply elem_of_nil in Hin.
  - reflexivity.
  - apply elem_of_cons in Hin as [[=]|Hin]. simpl.
    destruct (found st !! name) as [path|]; [|by apply IH].
    destruct (LoadDataClientPlugin (host W) path args) as [spec [e|]];
      by apply IH.
Qed.

(** An entry without a name in any of the four plugin lists makes
    [findAndLoadPlugins] panic, whatever else is configured and whatever
    the plugin directories hold. *)
Theorem findAndLoadPlugins_empty_entry_panics W o :
  [] ∈ MultiPlugins o \/ [] ∈ FilterPlugins o \/
  [] ∈ PredicatePlugins o \/ [] ∈ DataClientPlugins o ->
  findAndLoadPlugins W o = Panics.
Proof.
  intros Hin. unfold findAndLoadPlugins. simpl.
  destruct (findPlugins_spec W (PluginDirs o) {| opts := o; found := ∅; stdout := [] |})
    as (st1 & -> & Ho1 & _ & _).
  simpl in Ho1.
  destruct (loadMultiPlugins W _ st1) as [st2|] eqn:H2; [|reflexivity].
  pose proof (loadMultiPlugins_extends W _ _ _ H2) as (_ & _ & E2f & E2p & E2d & _).
  destruct (loadFilterPlugins W _ st2) as [st3|] eqn:H3; [|reflexivity].
  pose proof (loadFilterPlugins_extends W _ _ _ H3) as (_ & _ & _ & E3p & E3d & _).
  destruct (loadPredicatePlugins W _ st3) as [st4|] eqn:H4; [|reflexivity].
  pose proof (loadPredicatePlugins_extends W _ _ _ H4) as (_ & _ & _ & _ & E4d & _).
  destruct (loadDataClientPlugins W _ st4) as [st5|] eqn:H5; [|reflexivity].
  exfalso. rewrite Ho1 in *.
  destruct Hin as [Hin|[Hin|[Hin|Hin]]].
  - by rewrite loadMultiPlugins_empty_entry in H2.
  - rewrite loadFilterPlugins_empty_entry in H3; [done|congruence].
  - rewrite loadPredicatePlugins_empty_entry in H4; [done|congruence].
  - rewrite loadDataClientPlugins_empty_entry in H5; [done|congruence].
Qed.

End loading_edges.

(** ** One plugin file *)

Section one_plugin.
Context {Spec PredicateSpec DataClient Plugin : Type}.
Implicit Types (W : World Spec PredicateSpec DataClient Plugin)
  (st : loadState Spec PredicateSpec DataClient)
  (o : Options Spec PredicateSpec DataClient).

Lemma visit_plugin_file st path name :
  HasSuffix path ".so" = true -> Base path = name +:+ ".so" ->
  visit st (WalkInfo path false) =
    Returns (printf (set_found st (<[name := path]> (found st)))
               ("found plugin " +:+ name +:+ " at " +:+ path)).
Proof.
  intros Hso HB. unfold visit. rewrite Hso.
  destruct (Base_of_plugin_file path Hso) as (stem & HB' & Hstem & H3).
  cbv zeta. rewrite H3, Hstem.
  rewrite HB in HB'. apply append_inv_tail in HB'. by subst stem.
Qed.

(** The state after the walk when one directory holds one plugin file. *)
Lemma findPlugins_one_file W o dir path name :
  PluginDirs o = [dir] ->
  Walk W dir = [WalkInfo dir true; WalkInfo path false] ->
  HasSuffix path ".so" = true -> Base path = name +:+ ".so" ->
  findPlugins W (PluginDirs o) {| opts := o; found := ∅; stdout := [] |} =
    Returns {| opts := o; found := {[ name := path ]};
               stdout := [("found plugin " +:+ name +:+ " at " +:+ path) +:+ newline] |}.
Proof.
  intros -> HW Hso HB. cbn [findPlugins]. rewrite HW. cbn [walk_entries].
  assert (forall st, visit st (WalkInfo dir true) = Returns st) as Hdir by reflexivity.
  rewrite Hdir, (visit_plugin_file _ path name Hso HB).
  unfold printf, set_found. cbn [opts found stdout].
  rewrite insert_empty. reflexivity.
Qed.

(** A multi-type plugin that is listed and found is loaded through the
    list and not a second time by discovery: its non-nil components are
    appended, filter, predicate and data client each to its own list, its
    name leaves [found], and two lines are printed. *)
Theorem listed_multi_plugin_is_loaded_once W o dir path name args fltr pred dc :
  range_is_fair W ->
  PluginDirs o = [dir] ->
  Walk W dir = [WalkInfo dir true; WalkInfo path false] ->
  HasSuffix path ".so" = true -> Base path = name +:+ ".so" ->
  MultiPlugins o = [name :: args] ->
  FilterPlugins o = [] -> PredicatePlugins o = [] -> DataClientPlugins o = [] ->
  LoadMultiPlugin (host W) path args = (fltr, pred, dc, None) ->
  exists st,
    findAndLoadPlugins W o = Returns st /\
    CustomFilters (opts st) = (CustomFilters o ++ nonnil fltr)%list /\
    CustomPredicates (opts st) = (CustomPredicates o ++ nonnil pred)%list /\
    CustomDataClients (opts st) = (CustomDataClients o ++ nonnil dc)%list /\
    found st = ∅ /\
    stdout st =
      [("found plugin " +:+ name +:+ " at " +:+ path) +:+ newline;
       ("loaded plugin " +:+ name +:+ " from " +:+ path) +:+ newline].
Proof.
  intros Hfair Hdirs HW Hso HB Hm Hf Hp Hd Hload.
  unfold findAndLoadPlugins. cbn [opts].
  rewrite (findPlugins_one_file W o dir path name) by done. cbn [opts].
  rewrite Hm. cbn [loadMultiPlugins found]. rewrite lookup_singleton_eq, Hload.
  destruct fltr as [f|], pred as [p|], dc as [d|];
    unfold set_found, printf, appendFilter, appendPredicate, appendDataClient;
    cbn [opts found stdout FilterPlugins PredicatePlugins DataClientPlugins
         CustomFilters CustomPredicates CustomDataClients];
    rewrite Hf; cbn [loadFilterPlugins opts PredicatePlugins];
    rewrite Hp; cbn [loadPredicatePlugins opts DataClientPlugins];
    rewrite Hd; cbn [loadDataClientPlugins];
    rewrite delete_singleton_eq;
    (eexists; split; [reflexivity|]);
    (rewrite autoLoadAll_nothing_found; [|done|reflexivity]);
    cbn [opts found stdout CustomFilters CustomPredicates CustomDataClients nonnil];
    rewrite ?app_nil_r; by repeat split.
Qed.

End one_plugin.

Section one_plugin_discovered.
Context {Spec PredicateSpec DataClient Plugin : Type}.
Implicit Types (W : World Spec PredicateSpec DataClient Plugin)
  (st : loadState Spec PredicateSpec DataClient)
  (o : Options Spec PredicateSpec DataClient).

(** With empty plugin lists, the one plugin file that is found goes
    through the last loop. *)
Lemma findAndLoadPlugins_discovers_one W o dir path name :
  range_is_fair W ->
  PluginDirs o = [dir] ->
  Walk W dir = [WalkInfo dir true; WalkInfo path false] ->
  HasSuffix path ".so" = true -> Base path = name +:+ ".so" ->
  MultiPlugins o = [] -> FilterPlugins o = [] ->
  PredicatePlugins o = [] -> DataClientPlugins o = [] ->
  findAndLoadPlugins W o =
    Returns (autoLoad W name path
               {| opts := o; found := {[ name := path ]};
                  stdout := [("found plugin " +:+ name +:+ " at " +:+ path)
                             +:+ newline] |}).
Proof.
  intros Hfair Hdirs HW Hso HB Hm Hf Hp Hd.
  unfold findAndLoadPlugins. cbn [opts].
  rewrite (findPlugins_one_file W o dir path name) by done. cbn [opts].
  rewrite Hm. cbn [loadMultiPlugins opts]. rewrite Hf. cbn [loadFilterPlugins opts].
  rewrite Hp. cbn [loadPredicatePlugins opts]. rewrite Hd. cbn [loadDataClientPlugins].
  unfold autoLoadAll. cbn [found].
  pose proof (Hfair {[ name := path ]}) as Hperm.
  rewrite map_to_list_singleton in Hperm. apply Permutation_singleton_r in Hperm.
  by rewrite Hperm.
Qed.

(** A discovered plugin whose [InitFilter] returns an error is given up
    at once: its [InitPredicate] and [InitDataClient] are not tried, and
    the options stay as they were. *)
Theorem discovered_plugin_is_given_up_on_filter_error
    W o dir path name mod_ sym spec err :
  range_is_fair W ->
  PluginDirs o = [dir] ->
  Walk W dir = [WalkInfo dir true; WalkInfo path false] ->
  HasSuffix path ".so" = true -> Base path = name +:+ ".so" ->
  MultiPlugins o = [] -> FilterPlugins o = [] ->
  PredicatePlugins o = [] -> DataClientPlugins o = [] ->
  plugin_Open (host W) path = inl mod_ ->
  Plugin_Lookup (host W) mod_ "InitFilter" = inl sym ->
  loadFilterPlugin sym path [] = (spec, Some err) ->
  exists st,
    findAndLoadPlugins W o = Returns st /\
    opts st = o /\
    stdout st =
      [("found plugin " +:+ name +:+ " at " +:+ path) +:+ newline;
       ("attempting to load plugin from " +:+ path) +:+ newline;
       ("filter plugin " +:+ path +:+ " returned: " +:+ Error_string err)
       +:+ newline].
Proof.
  intros Hfair Hdirs HW Hso HB Hm Hf Hp Hd Hopen Hlook Hinit.
  rewrite (findAndLoadPlugins_discovers_one W o dir path name) by done.
  eexists. split; [reflexivity|].
  unfold autoLoad, autoFilter. cbn [printf opts found stdout host].
  rewrite Hopen, Hlook, Hinit. by split.
Qed.

(** A discovered plugin that exports the three init functions, none of
    which returns an error, adds one entry to each custom list. *)
Theorem discovered_plugin_loads_all_it_exports
    W o dir path name mod_ ffn pfn dfn fspec pspec dspec :
  range_is_fair W ->
  PluginDirs o = [dir] ->
  Walk W dir = [WalkInfo dir true; WalkInfo path false] ->
  HasSuffix path ".so" = true -> Base path = name +:+ ".so" ->
  MultiPlugins o = [] -> FilterPlugins o = [] ->
  PredicatePlugins o = [] -> DataClientPlugins o = [] ->
  plugin_Open (host W) path = inl mod_ ->
  Plugin_Lookup (host W) mod_ "InitFilter" = inl (InitFilterFunc ffn) ->
  Plugin_Lookup (host W) mod_ "InitPredicate" = inl (InitPredicateFunc pfn) ->
  Plugin_Lookup (host W) mod_ "InitDataClient" = inl (InitDataClientFunc dfn) ->
  ffn [] = (fspec, None) -> pfn [] = (pspec, None) -> dfn [] = (dspec, None) ->
  exists st,
    findAndLoadPlugins W o = Returns st /\
    CustomFilters (opts st) = (CustomFilters o ++ [fspec])%list /\
    CustomPredicates (opts st) = (CustomPredicates o ++ [pspec])%list /\
    CustomDataClients (opts st) = (CustomDataClients o ++ [dspec])%list.
Proof.
  intros Hfair Hdirs HW Hso HB Hm Hf Hp Hd Hopen Hlf Hlp Hld Hff Hpf Hdf.
  rewrite (findAndLoadPlugins_discovers_one W o dir path name) by done.
  eexists. split; [reflexivity|].
  unfold autoLoad, autoFilter, autoPredicate, autoDataClient,
    loadFilterPlugin, loadPredicatePlugin, loadDataClientPlugin.
  cbn [printf opts found stdout host].
  rewrite Hopen, Hlf, Hff. cbn [printf appendFilter opts found stdout host].
  rewrite Hlp, Hpf. cbn [printf appendPredicate opts found stdout host].
  rewrite Hld, Hdf. by repeat split.
Qed.

(** A listed filter plugin that loads without an error and without a
    spec makes [findAndLoadPlugins] panic: the nil spec is appended and
    then asked for its name. *)
Theorem listed_filter_plugin_without_spec_panics W o dir path name args rest :
  PluginDirs o = [dir] ->
  Walk W dir = [WalkInfo dir true; WalkInfo path false] ->
  HasSuffix path ".so" = true -> Base path = name +:+ ".so" ->
  MultiPlugins o = [] ->
  FilterPlugins o = (name :: args) :: rest ->
  LoadFilterPlugin (host W) path args = (None, None) ->
  findAndLoadPlugins W o = Panics.
Proof.
  intros Hdirs HW Hso HB Hm Hf Hload.
  unfold findAndLoadPlugins. cbn [opts].
  rewrite (findPlugins_one_file W o dir path name) by done. cbn [opts].
  rewrite Hm. cbn [loadMultiPlugins opts]. rewrite Hf. cbn [loadFilterPlugins found].
  by rewrite lookup_singleton_eq, Hload.
Qed.

End one_plugin_discovered.

(** ** The further properties at concrete inputs *)

Import DemoFragile DemoPlugins.

Lemma slice_consecutive_pages_witness :
  exists p1 p2 p,
    slice (validRoutes table10) 2 3 = Returns p1 /\
    slice (validRoutes table10) (2 + 3) 4 = Returns p2 /\
    slice (validRoutes table10) 2 (3 + 4) = Returns p /\
    elems_of p = (elems_of p1 ++ elems_of p2)%list.
Proof.
  apply (slice_consecutive_pages (validRoutes table10) 2 3 4); [lia|lia|lia|].
  vm_compute. by intros [=].
Defined.

Lemma slice_page_positions_witness :
  exists page,
    slice (validRoutes table10) 8 5 = Returns page /\
    forall i : nat,
      elems_of page !! i =
        if decide (i < Z.to_nat 5)%nat
        then elems_of (validRoutes table10) !! (Z.to_nat 8 + i)%nat
        else None.
Proof.
  apply (slice_page_positions (validRoutes table10) 8 5); [lia|lia|].
  vm_compute. by intros [=].
Defined.

Lemma ServeHTTP_panics_iff_witness :
  ServeHTTP routing10 newRecorder get_huge_limit = Panics.
Proof.
  apply (ServeHTTP_panics_iff routing10 get_huge_limit).
  split; [reflexivity|]. split; [left; run|].
  exists 1, maxInt. split; [run|]. split; [run|]. run.
Defined.

Lemma ServeHTTP_statuses_witness :
  exists w,
    serve routing10 get_negative_limit = Returns w /\
    status w = 400 /\
    body w = "invalid limit" +:+ newline.
Proof.
  pose proof (ServeHTTP_statuses routing10 get_negative_limit) as Hthm.
  eexists. split; [run|]. split; [run|].
  match goal with
  | |- body ?w = _ =>
      destruct (Hthm w ltac:(run)) as (_ & _ & _ & H400)
  end.
  destruct (H400 ltac:(run)) as [Hts|[_ [Ho|Hl]]].
  - vm_compute in Hts. discriminate.
  - vm_compute in Ho. discriminate.
  - exact Hl.
Defined.

Lemma extractParam_reads_Itoa_witness :
  extractParam (with_param get_plain "offset" (Itoa 37)) "offset" 0 = (37, None) /\
  exists e,
    extractParam (with_param get_plain "offset" (Itoa (-5))) "offset" 0 = (0, Some e).
Proof.
  split.
  - apply (extractParam_reads_Itoa get_plain "offset" 0 37). by split.
  - apply (extractParam_reads_Itoa get_plain "offset" 0 (-5)). by split.
Defined.

Lemma HEAD_has_the_headers_of_GET_witness :
  exists w w',
    serve routing10 get_page = Returns w /\ status w < 400 /\
    serve routing10 (with_method get_page "HEAD") = Returns w' /\
    Header w' = Header w /\ body w' = EmptyString /\ status w' = 200.
Proof.
  pose proof (HEAD_has_the_headers_of_GET routing10 get_page) as Hthm.
  eexists. 
  match goal with
  | |- exists w', serve _ _ = Returns ?w /\ _ =>
      assert (serve routing10 get_page = Returns w) as Hs by run;
      assert (status w < 400) as Hst by run;
      destruct (Hthm w eq_refl Hs Hst) as (w' & Hs' & Hh & Hb & Hc)
  end.
  exists w'. by repeat split.
Defined.

Lemma X_Timestamp_is_accepted_back_witness :
  exists w,
    serve routing10 get_page = Returns w /\ status w < 400 /\
    Header w !! "X-Timestamp" = Some ["1500000000"] /\
    serve routing10 (with_param get_page "timestamp" "1500000000") = Returns w.
Proof.
  pose proof (X_Timestamp_is_accepted_back routing10 get_page) as Hthm.
  eexists. split; [run|]. split; [run|]. split; [run|].
  apply Hthm; [by left|run|run|run].
Defined.

Lemma nopretty_zero_or_false_is_pretty_witness :
  serve routing10 (with_param get_first_two "nopretty" "false")
  = serve routing10 (without_param get_first_two "nopretty").
Proof.
  apply (nopretty_zero_or_false_is_pretty routing10 newRecorder get_first_two "false").
  by right.
Defined.

Lemma JSON_encoding_failure_is_500_witness :
  exists w,
    ServeHTTP fragile_routing newRecorder get_plain_json = Returns w /\
    status w = 500 /\
    body w = "Internal Server Error" +:+ newline /\
    Header w !! "Content-Type" = Some ["text/plain; charset=utf-8"] /\
    Header w !! "X-Timestamp" = Some [createdUnix fragile_routing] /\
    Header w !! "X-Count" = Some [routesCount fragile_routing].
Proof.
  apply (JSON_encoding_failure_is_500 fragile_routing get_plain_json 0 1024).
  - reflexivity.
  - left. run.
  - run.
  - run.
  - vm_compute. by intros [=].
  - run.
  - run.
Defined.

Lemma New_lists_no_route_witness :
  exists w,
    ServeHTTP (New (eskip_Route := string) (@nil (string * string)) {| Unix := 7 |})
      newRecorder get_plain_json = Returns w /\
    status w = 200 /\
    Header w !! "X-Count" = Some ["0"] /\
    body w = if acceptsJSON get_plain_json then "[]" +:+ newline
             else Fprint (extractPretty get_plain_json) [].
Proof.
  apply (New_lists_no_route (eskip_Route := string) (@nil (string * string))
           {| Unix := 7 |} get_plain_json 0 1024).
  - reflexivity.
  - left. run.
  - run.
  - run.
Defined.

Lemma LoadMultiPlugin_succeeds_iff_witness :
  LoadMultiPlugin demo_host "/plugins/multi.so" ["a"; "b"]
  = (Some "filter:a,b", None, Some "client", None).
Proof.
  apply LoadMultiPlugin_succeeds_iff.
  exists "/plugins/multi.so", multi_init. by repeat split.
Defined.

Lemma single_loaders_succeed_iff_witness :
  LoadFilterPlugin full_host "/plugins/full.so" ["x"] = (Some "f", None) /\
  LoadPredicatePlugin full_host "/plugins/full.so" ["x"] = (Some "p", None) /\
  LoadDataClientPlugin full_host "/plugins/full.so" ["x"] = (None, None).
Proof.
  destruct (single_loaders_succeed_iff full_host "/plugins/full.so" ["x"])
    as (Hf & Hp & Hd).
  split; [|split].
  - apply Hf. eexists _, _. by repeat split.
  - apply Hp. eexists _, _. by repeat split.
  - apply Hd. eexists _, _. by repeat split.
Defined.

Lemma findPlugins_records_base_names_witness :
  (exists dir, dir ∈ PluginDirs demo_options /\
               WalkInfo "/plugins/sub/broken.so" false ∈ Walk demo_world dir) /\
  HasSuffix "/plugins/sub/broken.so" ".so" = true /\
  Base "/plugins/sub/broken.so" = "broken" +:+ ".so".
Proof.
  destruct (findPlugins_records_base_names demo_world demo_options)
    as (st & Hs & _ & Hf).
  vm_compute in Hs. injection Hs as <-.
  apply (Hf "broken" "/plugins/sub/broken.so"). run.
Defined.

Lemma findAndLoadPlugins_only_appends_witness :
  exists st,
    findAndLoadPlugins demo_world demo_options = Returns st /\
    CustomFilters demo_options `prefix_of` CustomFilters (opts st) /\
    CustomFilters (opts st) = [Some "builtin"; Some "filter:a,b"] /\
    MultiPlugins (opts st) = MultiPlugins demo_options.
Proof.
  pose proof (findAndLoadPlugins_only_appends demo_world demo_options) as Hthm.
  eexists. split; [run|].
  match goal with
  | |- _ `prefix_of` CustomFilters (opts ?st) /\ _ =>
      destruct (Hthm st ltac:(run)) as (_ & Hm & _ & _ & _ & Hf & _ & _)
  end.
  split; [exact Hf|]. split; [run|exact Hm].
Defined.

Lemma findAndLoadPlugins_without_plugin_files_witness :
  exists st,
    findAndLoadPlugins bare_world hopeful_options = Returns st /\
    opts st = hopeful_options /\ found st = ∅.
Proof.
  apply (findAndLoadPlugins_without_plugin_files bare_world hopeful_options).
  - intros m. reflexivity.
  - intros dir e _ He. apply list_elem_of_In in He. simpl in He.
    destruct He as [<-|[<-|[]]]; reflexivity.
  - intros H. apply list_elem_of_In in H. simpl in H. by destruct H as [|[]].
  - intros H. apply list_elem_of_In in H. simpl in H. by destruct H as [|[]].
  - intros H. by apply elem_of_nil in H.
  - intros H. by apply elem_of_nil in H.
Defined.

Lemma findAndLoadPlugins_empty_entry_panics_witness :
  findAndLoadPlugins demo_world empty_entry_options = Panics.
Proof.
  apply findAndLoadPlugins_empty_entry_panics.
  right. left. simpl. apply list_elem_of_further, list_elem_of_here.
Defined.

Lemma listed_multi_plugin_is_loaded_once_witness :
  exists st,
    findAndLoadPlugins single_world single_options = Returns st /\
    CustomFilters (opts st) = [Some "builtin"; Some "filter:a,b"] /\
    CustomPredicates (opts st) = [] /\
    CustomDataClients (opts st) = [Some "client"] /\
    found st = ∅ /\
    stdout st =
      [("found plugin " +:+ "multi" +:+ " at " +:+ "/plugins/multi.so") +:+ newline;
       ("loaded plugin " +:+ "multi" +:+ " from " +:+ "/plugins/multi.so") +:+ newline].
Proof.
  apply (listed_multi_plugin_is_loaded_once single_world single_options "/plugins"
           "/plugins/multi.so" "multi" ["a"; "b"]
           (Some "filter:a,b") None (Some "client"));
    try reflexivity.
  intros m. reflexivity.
Defined.

Lemma discovered_plugin_is_given_up_on_filter_error_witness :
  exists st,
    findAndLoadPlugins broken_world discover_options = Returns st /\
    opts st = discover_options /\
    stdout st =
      [("found plugin " +:+ "broken" +:+ " at " +:+ "/plugins/sub/broken.so")
       +:+ newline;
       ("attempting to load plugin from " +:+ "/plugins/sub/broken.so") +:+ newline;
       ("filter plugin " +:+ "/plugins/sub/broken.so" +:+ " returned: "
        +:+ Error_string
              (Errorf ("plugin " +:+ "/plugins/sub/broken.so" +:+ " returned: "
                       +:+ "no configuration")))
       +:+ newline].
Proof.
  apply (discovered_plugin_is_given_up_on_filter_error broken_world discover_options
           "/plugins" "/plugins/sub/broken.so" "broken" "/plugins/sub/broken.so"
           (InitFilterFunc broken_init) None);
    try reflexivity.
  intros m. reflexivity.
Defined.

Lemma discovered_plugin_loads_all_it_exports_witness :
  exists st,
    findAndLoadPlugins full_world discover_options = Returns st /\
    CustomFilters (opts st) = (CustomFilters discover_options ++ [Some "f"])%list /\
    CustomPredicates (opts st) = (CustomPredicates discover_options ++ [Some "p"])%list /\
    CustomDataClients (opts st) = (CustomDataClients discover_options ++ [None])%list.
Proof.
  apply (discovered_plugin_loads_all_it_exports full_world discover_options
           "/plugins" "/plugins/full.so" "full" "/plugins/full.so"
           (fun _ => (Some "f", None)) (fun _ => (Some "p", None))
           (fun _ => (None, None)));
    try reflexivity.
  intros m. reflexivity.
Defined.

Lemma listed_filter_plugin_without_spec_panics_witness :
  findAndLoadPlugins silent_world silent_options = Panics.
Proof.
  apply (listed_filter_plugin_without_spec_panics silent_world silent_options
           "/plugins" "/plugins/silent.so" "silent" ["x"] []);
    reflexivity.
Defined.
